(** * Explorer API (src/index.js): a shallow embedding and its properties

    The program is an Express application over one JSON file, run by
    Node.  The embedding follows the source function by function:

    - A JS number is a double.  The numbers of this program are integers,
      so a [number] is [NaN], an infinity or [Finite n] for an integer
      [n]; zero has one sign, the program never tells [0] from [-0].
      [parseInt] rounds the integer it reads to the nearest double
      ([to_double]): beyond 2^53 not every integer is a number.  Sums and
      products of numbers are exact: the program computes them only as
      the bounds of a [slice], and a bound that rounding would move lies
      beyond 2^53 - 100, past the end of every array (an array has fewer
      than 2^32 elements), where [slice] returns the same empty list
      ([rounded_bounds_same_slice]).  The length of a list and a like
      counter are counts, integers [Z] below 2^53; the quotient of such a
      length by a limit of at most 100 is rounded by far less than its
      distance to the next integer, so that [Math.ceil] of it is the
      exact ceiling.
    - JS strings are sequences of code units below 256 ([string]); on that
      range [toLowerCase], [includes] and [parseInt] below are the
      functions of the language.
    - A query parameter or a body field is [option string]: [None] when the
      request does not carry it.
    - A JS object used as a dictionary is a finite map ([gmap]) of its own
      properties, which is what [JSON.parse] builds and [JSON.stringify]
      writes.  It is read by [get_property] and written by
      [set_property], which account for the properties that every object
      inherits from [Object.prototype].
    - [db.json] holds a document or is absent; [JSON.stringify] followed by
      [JSON.parse] is the identity on the documents of the data model.
    - The clock and the identifier generator are oracles of the world the
      handlers run in; a failing call is an exception ([Throw]). *)

From Stdlib Require Import ZArith Ascii String List Bool Lia.
From stdpp Require Import base tactics option list strings gmap.

Open Scope Z_scope.

(** ** Values of the language *)

(** Truthiness of a string that may be [undefined]: [if (q)], [!q]. *)
Definition truthy (v : option string) : bool :=
  match v with
  | Some s => negb (String.eqb s "")
  | None => false
  end.

(** [v || ''] on a string that may be [undefined]. *)
Definition or_empty (v : option string) : string := default "" v.

(** [v || null] on a string that may be [undefined]. *)
Definition or_null (v : option string) : option string :=
  if truthy v then v else None.

(** *** Numbers *)

Inductive number : Type :=
| NaN
| Finite (n : Z)
| PosInfinity
| NegInfinity.

Coercion Finite : Z >-> number.

(** 2^53: every integer below it is a double. *)
Definition two_53 : Z := 9007199254740992.

(** [a >= 0] rounded to a multiple of [2^e], a tie going to the even
    multiple. *)
Definition round_half_even (a e : Z) : Z :=
  let unit := 2 ^ e in
  let q := a / unit in
  let r := a mod unit in
  let q' :=
    if 2 * r <? unit then q
    else if unit <? 2 * r then q + 1
    else if Z.even q then q else q + 1 in
  q' * unit.

(** The double nearest to the integer [z]: 53 significant bits, ties to
    even; beyond the largest double, 2^1024 - 2^971, it is infinite. *)
Definition to_double (z : Z) : number :=
  let a := Z.abs z in
  if a <? two_53 then Finite z
  else
    let m := round_half_even a (Z.log2 a - 52) in
    if 2 ^ 1024 <=? m then (if z <? 0 then NegInfinity else PosInfinity)
    else Finite (Z.sgn z * m).

(** The double nearest to a number of the model: what an operation of the
    engine returns where the model computes the exact sum or product. *)
Definition rounded (x : number) : number :=
  match x with
  | Finite z => to_double z
  | _ => x
  end.

(** [n || d] on a number: [NaN] and [0] are falsy. *)
Definition or_number (n : number) (d : Z) : number :=
  match n with
  | NaN => Finite d
  | Finite k => if k =? 0 then Finite d else n
  | _ => n
  end.

Module Math.

(** [Math.max(a, b)] *)
Definition max (a b : number) : number :=
  match a, b with
  | NaN, _ | _, NaN => NaN
  | PosInfinity, _ | _, PosInfinity => PosInfinity
  | NegInfinity, x | x, NegInfinity => x
  | Finite x, Finite y => Finite (Z.max x y)
  end.

(** [Math.min(a, b)] *)
Definition min (a b : number) : number :=
  match a, b with
  | NaN, _ | _, NaN => NaN
  | NegInfinity, _ | _, NegInfinity => NegInfinity
  | PosInfinity, x | x, PosInfinity => x
  | Finite x, Finite y => Finite (Z.min x y)
  end.

End Math.

Definition infinity (negative : bool) : number :=
  if negative then NegInfinity else PosInfinity.

(** [a + b] *)
Definition number_add (a b : number) : number :=
  match a, b with
  | NaN, _ | _, NaN => NaN
  | Finite x, Finite y => Finite (x + y)
  | PosInfinity, NegInfinity | NegInfinity, PosInfinity => NaN
  | PosInfinity, _ | _, PosInfinity => PosInfinity
  | NegInfinity, _ | _, NegInfinity => NegInfinity
  end.

(** [a - b] *)
Definition number_sub (a b : number) : number :=
  match a, b with
  | NaN, _ | _, NaN => NaN
  | Finite x, Finite y => Finite (x - y)
  | PosInfinity, PosInfinity | NegInfinity, NegInfinity => NaN
  | PosInfinity, _ | _, NegInfinity => PosInfinity
  | NegInfinity, _ | _, PosInfinity => NegInfinity
  end.

(** [a * b] *)
Definition number_mul (a b : number) : number :=
  match a, b with
  | NaN, _ | _, NaN => NaN
  | Finite x, Finite y => Finite (x * y)
  | Finite x, PosInfinity | PosInfinity, Finite x =>
      if x =? 0 then NaN else infinity (x <? 0)
  | Finite x, NegInfinity | NegInfinity, Finite x =>
      if x =? 0 then NaN else infinity (0 <? x)
  | PosInfinity, PosInfinity | NegInfinity, NegInfinity => PosInfinity
  | PosInfinity, NegInfinity | NegInfinity, PosInfinity => NegInfinity
  end.

(** *** Strings *)

(** [String.prototype.toLowerCase], one code unit: A-Z and the capital
    letters of U+00C0..U+00DE (the multiplication sign U+00D7 apart) move
    up by 32. *)
Definition lower_unit (c : ascii) : ascii :=
  let n := N_of_ascii c in
  if ((65 <=? n) && (n <=? 90) || (192 <=? n) && (n <=? 222) && negb (n =? 215))%N
  then ascii_of_N (n + 32)
  else c.

Fixpoint toLowerCase (s : string) : string :=
  match s with
  | EmptyString => EmptyString
  | String c s' => String (lower_unit c) (toLowerCase s')
  end.

(** [s.includes(search)]: [search] occurs in [s] at some position. *)
Fixpoint includes (s search : string) : bool :=
  String.prefix search s
  || match s with
     | EmptyString => false
     | String _ s' => includes s' search
     end.

(** White space that [parseInt] skips: TAB, LF, VT, FF, CR, SP, NBSP. *)
Definition is_white_space (c : ascii) : bool :=
  let n := N_of_ascii c in
  ((9 <=? n) && (n <=? 13) || (n =? 32) || (n =? 160))%N.

Fixpoint trim_start (s : string) : string :=
  match s with
  | EmptyString => EmptyString
  | String c s' => if is_white_space c then trim_start s' else s
  end.

Definition digit_value (c : ascii) : option Z :=
  let n := N_of_ascii c in
  if ((48 <=? n) && (n <=? 57))%N then Some (Z.of_N n - 48) else None.

(** The longest prefix of decimal digits, read most significant first;
    [acc] is [None] until a digit has been read. *)
Fixpoint parse_digits (s : string) (acc : option Z) : option Z :=
  match s with
  | EmptyString => acc
  | String c s' =>
      match digit_value c with
      | Some d => parse_digits s' (Some (10 * default 0 acc + d))
      | None => acc
      end
  end.

(** The integer that [parseInt(s, 10)] reads: white space, a sign, then
    digits; [None] when no digit is there. *)
Definition read_integer (s : string) : option Z :=
  match trim_start s with
  | String "-" s' => Z.opp <$> parse_digits s' None
  | String "+" s' => parse_digits s' None
  | s' => parse_digits s' None
  end.

(** [parseInt(s, 10)]: the double of the integer read, [NaN] when there
    is none. *)
Definition parseInt (s : string) : number :=
  match read_integer s with
  | Some n => to_double n
  | None => NaN
  end.

(** [parseInt(v, 10)] for a parameter with a numeric default:
    [function f(v = d)] replaces [undefined] by [d], and
    [parseInt(d, 10)] is [d]. *)
Definition parseInt_or (v : option string) (d : Z) : number :=
  match v with
  | Some s => parseInt s
  | None => Finite d
  end.

(** The ceiling of [n / d] for integers, [d] not zero. *)
Definition ceil_div (n d : Z) : Z := - ((- n) / d).

(** [Math.ceil(n / d)] for a count [n]: the quotient is a number of the
    model only once rounded up. *)
Definition ceil_quotient (n : Z) (d : number) : number :=
  match d with
  | NaN => NaN
  | Finite k =>
      if k =? 0 then (if n =? 0 then NaN else infinity (n <? 0))
      else Finite (ceil_div n k)
  | PosInfinity | NegInfinity => Finite 0
  end.

(** The index that a bound of [slice] denotes in a list of [len]
    elements: a negative bound counts from the end, [NaN] is 0. *)
Definition relative_index (len : Z) (bound : number) : Z :=
  match bound with
  | NaN => 0
  | Finite k => if k <? 0 then Z.max (len + k) 0 else Z.min k len
  | PosInfinity => len
  | NegInfinity => 0
  end.

(** [xs.slice(start, end)] *)
Definition slice {A : Type} (xs : list A) (start end_ : number) : list A :=
  let len := Z.of_nat (length xs) in
  let k := relative_index len start in
  let final := relative_index len end_ in
  take (Z.to_nat (final - k)) (drop (Z.to_nat k) xs).

(** *** Objects used as dictionaries *)

(** What a cell of a counter table holds in [db.json]: a number, or a
    string. *)
Inductive Cell : Type :=
| Num (n : Z)
| Text (s : string).

(** What [table[name]] evaluates to. *)
Inductive Value : Type :=
| Undefined
| NumberValue (n : Z)
| StringValue (s : string)
| BuiltinFunction (name : string)   (* a function of [Object.prototype] *)
| ObjectPrototype.                  (* [Object.prototype] itself *)

(** The function-valued properties of [Object.prototype], which every
    plain object inherits: the name of the property and the name of the
    function it holds. *)
Definition object_prototype : list (string * string) :=
  [ ("constructor", "Object");
    ("__defineGetter__", "__defineGetter__");
    ("__defineSetter__", "__defineSetter__");
    ("hasOwnProperty", "hasOwnProperty");
    ("__lookupGetter__", "__lookupGetter__");
    ("__lookupSetter__", "__lookupSetter__");
    ("isPrototypeOf", "isPrototypeOf");
    ("propertyIsEnumerable", "propertyIsEnumerable");
    ("toString", "toString");
    ("valueOf", "valueOf");
    ("toLocaleString", "toLocaleString") ].

(** The value a plain object inherits under [name], if any; [__proto__]
    is an accessor, whose getter returns the prototype. *)
Definition inherited (name : string) : option Value :=
  if String.eqb name "__proto__" then Some ObjectPrototype
  else
    (fun entry => BuiltinFunction (snd entry))
      <$> List.find (fun entry => String.eqb (fst entry) name) object_prototype.

(** The value of a cell. *)
Definition cell_value (c : Cell) : Value :=
  match c with
  | Num n => NumberValue n
  | Text s => StringValue s
  end.

(** [table[name]]: the own property, else the inherited one, else
    [undefined]. *)
Definition get_property (table : gmap string Cell) (name : string) : Value :=
  match table !! name with
  | Some c => cell_value c
  | None => default Undefined (inherited name)
  end.

(** [table[name] = v] for a number or a string [v]: an own property is
    written or created, shadowing an inherited function; without an own
    [__proto__] the assignment runs the setter of the accessor, which
    ignores a value that is neither an object nor [null]. *)
Definition set_property (table : gmap string Cell) (name : string) (v : Cell)
    : gmap string Cell :=
  match table !! name with
  | Some _ => <[name := v]> table
  | None => if String.eqb name "__proto__" then table else <[name := v]> table
  end.

(** [String(f)] for a built-in function named [name]. *)
Definition native_code (name : string) : string :=
  "function " +:+ name +:+ "() { [native code] }".

(** [v || 0]: [undefined], [0] and [''] are falsy. *)
Definition or_zero (v : Value) : Value :=
  match v with
  | Undefined => NumberValue 0
  | StringValue s => if String.eqb s "" then NumberValue 0 else v
  | _ => v
  end.

(** [(v || 0) + 1]: a number counts one more; any other truthy value is
    turned into a string, to which ["1"] is appended. *)
Definition increment (v : Value) : Cell :=
  match v with
  | Undefined => Num 1
  | NumberValue n => Num (n + 1)
  | StringValue s => if String.eqb s "" then Num 1 else Text (s +:+ "1")
  | BuiltinFunction name => Text (native_code name +:+ "1")
  | ObjectPrototype => Text "[object Object]1"
  end.

(** ** Query layer *)

(** The envelope of a page.  [JSON.stringify] writes an infinite [page]
    as [null]. *)
Record Envelope (A : Type) : Type := mkEnvelope {
  page : number;
  limit : number;
  total : Z;
  pages : number;
  data : list A
}.
Arguments mkEnvelope {A} _ _ _ _ _.
Arguments page {A} _.
Arguments limit {A} _.
Arguments total {A} _.
Arguments pages {A} _.
Arguments data {A} _.

Definition paginate {A : Type} (array : list A) (page limit : option string)
    : Envelope A :=
  let p := Math.max 1 (or_number (parseInt_or page 1) 1) in
  let l := Math.max 1 (Math.min 100 (or_number (parseInt_or limit 10) 10)) in
  let start := number_mul (number_sub p 1) l in
  mkEnvelope p l
    (Z.of_nat (length array))
    (ceil_quotient (Z.of_nat (length array)) l)
    (slice array start (number_add start l)).

(** ** Data model: the document of [db.json] *)

Module Highlight.
Record t : Type := mk {
  id : string; title : string; summary : string; image : string;
  url : string; publishedAt : string; sourceId : string
}.
End Highlight.

(** An article. [title] and [summary] may be missing (the filters test
    them before use); [sourceId] may be [null]. *)
Module Article.
Record t : Type := mk {
  id : string; title : option string; summary : option string;
  url : string; image : string; publishedAt : string;
  sourceId : option string
}.
End Article.

Module Image.
Record t : Type := mk {
  id : string; title : option string; url : string; thumb : string;
  sourceId : option string
}.
End Image.

Module Source.
Record t : Type := mk { id : string; name : string; url : string }.
End Source.

Module Trending.
Record t : Type := mk { id : string; topic : string; score : Z }.
End Trending.

Module Feedback.
Record t : Type := mk {
  id : string; message : string; context : option string;
  createdAt : string
}.
End Feedback.

(** [db.likes]: the two counter tables of the data model, and the tables
    that [POST /like] adds under other keys.  A key is a type followed by
    [s]; no property of [Object.prototype] has such a name
    ([type_key_not_inherited] below), so that [likes[key]] is an own
    property or [undefined]. *)
Module Likes.
Record t : Type := mk {
  articles : gmap string Cell;
  images : gmap string Cell;
  others : gmap string (gmap string Cell)
}.

(** [likes[key]] *)
Definition get (likes : t) (key : string) : option (gmap string Cell) :=
  if String.eqb key "articles" then Some (articles likes)
  else if String.eqb key "images" then Some (images likes)
  else others likes !! key.

(** [likes[key] = table] *)
Definition set (likes : t) (key : string) (table : gmap string Cell) : t :=
  if String.eqb key "articles" then mk table (images likes) (others likes)
  else if String.eqb key "images" then mk (articles likes) table (others likes)
  else mk (articles likes) (images likes) (<[key := table]> (others likes)).
End Likes.

Record Document : Type := mkDocument {
  highlights : list Highlight.t;
  news : list Article.t;
  images : list Image.t;
  sources : list Source.t;
  trending : list Trending.t;
  likes : Likes.t;
  feedback : option (list Feedback.t);
  createdAt : string
}.

Definition set_news (db : Document) (v : list Article.t) : Document :=
  mkDocument (highlights db) v (images db) (sources db) (trending db)
    (likes db) (feedback db) (createdAt db).

Definition set_likes (db : Document) (v : Likes.t) : Document :=
  mkDocument (highlights db) (news db) (images db) (sources db) (trending db)
    v (feedback db) (createdAt db).

Definition set_feedback (db : Document) (v : list Feedback.t) : Document :=
  mkDocument (highlights db) (news db) (images db) (sources db) (trending db)
    (likes db) (Some v) (createdAt db).

(** ** The world a request runs in *)

Record World : Type := mkWorld {
  disk : option Document;   (* db.json: absent, or the document it encodes *)
  clock : nat -> string;    (* the n-th reading of [new Date().toISOString()] *)
  ticks : nat;              (* readings taken so far *)
  entropy : nat -> string;  (* the n-th string [nanoid] returns *)
  draws : nat               (* strings drawn so far *)
}.

Inductive Result (A : Type) : Type :=
| Ok (a : A)
| Throw (error : string).
Arguments Ok {A} a.
Arguments Throw {A} error.

Definition M (A : Type) : Type := World -> Result A * World.

#[global] Instance M_ret : MRet M := fun A a w => (Ok a, w).

#[global] Instance M_bind : MBind M := fun A B f m w =>
  match m w with
  | (Ok a, w') => f a w'
  | (Throw e, w') => (Throw e, w')
  end.

(** [fs.existsSync(DB_FILE)] *)
Definition existsSync : M bool :=
  fun w => (Ok (bool_decide (is_Some (disk w))), w).

(** [JSON.parse(fs.readFileSync(DB_FILE, 'utf8'))] *)
Definition readFileSync : M Document :=
  fun w =>
    match disk w with
    | Some db => (Ok db, w)
    | None => (Throw "ENOENT", w)
    end.

(** [fs.writeFileSync(DB_FILE, JSON.stringify(data, null, 2), 'utf8')] *)
Definition writeFileSync (data : Document) : M unit :=
  fun w => (Ok tt, mkWorld (Some data) (clock w) (ticks w) (entropy w) (draws w)).

(** [new Date().toISOString()] *)
Definition toISOString : M string :=
  fun w => (Ok (clock w (ticks w)),
            mkWorld (disk w) (clock w) (S (ticks w)) (entropy w) (draws w)).

(** [nanoid(size)] *)
Definition nanoid (size : nat) : M string :=
  fun w => (Ok (entropy w (draws w)),
            mkWorld (disk w) (clock w) (ticks w) (entropy w) (S (draws w))).

(** ** Document store *)

(** One code unit as a string, for the letters outside ASCII. *)
Definition unit_string (n : N) : string := String (ascii_of_N n) EmptyString.

(** The object literal of [getInitialData], [now] being the clock
    reading taken before it.  The source closes the [likes] object with a
    square bracket; the literal is read as the object it opens. *)
Definition initial_data (now : string) : Document :=
  mkDocument
    [ Highlight.mk "h1" "Destaque: Economia global em foco" "Resumo do destaque."
        "https://picsum.photos/seed/hl1/800/450" "https://exemplo.com/destaque-1"
        now "s1" ]
    [ Article.mk "n1" (Some "Mercados subiram hoje")
        (Some ("Resumo da not" +:+ unit_string 237 +:+ "cia de mercado."))
        "https://noticias.ex/n1" "https://picsum.photos/seed/n1/400/300"
        now (Some "s1");
      Article.mk "n2"
        (Some ("Tecnologia: nova vers" +:+ unit_string 227 +:+ "o lan"
               +:+ unit_string 231 +:+ "ada"))
        (Some ("Resumo da not" +:+ unit_string 237 +:+ "cia tech."))
        "https://noticias.ex/n2" "https://picsum.photos/seed/n2/400/300"
        now (Some "s2") ]
    [ Image.mk "img1" (Some "Paisagem")
        "https://picsum.photos/seed/img1/1200/800"
        "https://picsum.photos/seed/img1/400/300" (Some "s3") ]
    [ Source.mk "s1" "Exemplo News" "https://noticias.ex";
      Source.mk "s2" "TechToday" "https://techtoday.ex";
      Source.mk "s3" "Pics" "https://picsum.photos" ]
    [ Trending.mk "t1" "Economia" 92;
      Trending.mk "t2" "IA" 88 ]
    (Likes.mk {[ "n1" := Num 12; "n2" := Num 5 ]} {[ "img1" := Num 3 ]} ∅)
    None
    now.

Definition getInitialData : M Document :=
  now ← toISOString;
  mret (initial_data now).

Definition readDB : M Document :=
  present ← existsSync;
  (if negb present
   then seed ← getInitialData; writeFileSync seed
   else mret tt);;
  readFileSync.

Definition writeDB (data : Document) : M unit := writeFileSync data.

(** ** Responses *)

(** A search hit: [{ type: 'news', ...x }] or [{ type: 'image', ...x }]. *)
Inductive Item : Type :=
| NewsItem (x : Article.t)
| ImageItem (x : Image.t).

Record Hit : Type := mkHit { type : string; item : Item }.

(** The object given to [res.json].  Of a [likes] that is not a number or
    a string, [JSON.stringify] writes [{}] for [Object.prototype] and
    leaves the property out for a function. *)
Inductive Body : Type :=
| ErrorBody (error : string)                    (* { error } *)
| HealthBody (time : string)                    (* { status: 'ok', time } *)
| HighlightItems (items : list Highlight.t)     (* { items } *)
| SourceItems (items : list Source.t)           (* { items } *)
| TrendingItems (items : list Trending.t)       (* { items } *)
| NewsPage (pag : Envelope Article.t)
| ImagesPage (pag : Envelope Image.t)
| SearchPage (pag : Envelope Hit)
| ArticleBody (item : Article.t) (likes : Value)  (* { ...item, likes } *)
| LikeBody (id type : string) (likes : Value)   (* { id, type, likes } *)
| StatusOk                                      (* { status: 'ok' } *)
| CreatedBody (created : Article.t).            (* { created: item } *)

Record Response : Type := mkResponse {
  status : Z;
  cache_control : option string;
  body : Body
}.

(** [res.json(body)] *)
Definition json (body : Body) : Response := mkResponse 200 None body.

(** [res.set('Cache-Control', v); res.json(body)] *)
Definition json_cached (v : string) (body : Body) : Response :=
  mkResponse 200 (Some v) body.

(** [res.status(code).json({ error })] *)
Definition json_error (code : Z) (error : string) : Response :=
  mkResponse code None (ErrorBody error).

(** ** Request handlers *)

(** [x.f && x.f.toLowerCase().includes(ql)] on a field that may be missing. *)
Definition field_includes (f : option string) (ql : string) : bool :=
  match f with
  | Some s => negb (String.eqb s "") && includes (toLowerCase s) ql
  | None => false
  end.

Definition news_matches (ql : string) (x : Article.t) : bool :=
  field_includes (Article.title x) ql || field_includes (Article.summary x) ql.

Definition image_matches (ql : string) (x : Image.t) : bool :=
  field_includes (Image.title x) ql.

(** [x.sourceId === source] *)
Definition from_source (source : string) (x : Article.t) : bool :=
  bool_decide (Article.sourceId x = Some source).

(** [GET /api/v1/health] *)
Definition get_health : M Response :=
  time ← toISOString;
  mret (json (HealthBody time)).

(** [GET /api/v1/highlights] *)
Definition get_highlights : M Response :=
  db ← readDB;
  mret (json_cached "public, max-age=60" (HighlightItems (highlights db))).

(** [GET /api/v1/news?q=&page=&limit=&source=] *)
Definition get_news (q page limit source : option string) : M Response :=
  db ← readDB;
  let items := news db in
  let items :=
    if truthy source then List.filter (from_source (or_empty source)) items
    else items in
  let items :=
    if truthy q then
      let ql := toLowerCase (or_empty q) in
      List.filter (news_matches ql) items
    else items in
  let pag := paginate items page limit in
  mret (json_cached "public, max-age=30" (NewsPage pag)).

(** [GET /api/v1/news/:id] *)
Definition get_article (id : string) : M Response :=
  db ← readDB;
  match List.find (fun n => String.eqb (Article.id n) id) (news db) with
  | None => mret (json_error 404 "Not found")
  | Some item =>
      let likes :=
        or_zero (get_property (Likes.articles (likes db)) (Article.id item)) in
      mret (json_cached "public, max-age=30" (ArticleBody item likes))
  end.

(** [GET /api/v1/images?q=&page=&limit=] *)
Definition get_images (q page limit : option string) : M Response :=
  db ← readDB;
  let items := images db in
  let items :=
    if truthy q then
      let ql := toLowerCase (or_empty q) in
      List.filter (image_matches ql) items
    else items in
  let pag := paginate items page limit in
  mret (json_cached "public, max-age=60" (ImagesPage pag)).

(** [GET /api/v1/sources] *)
Definition get_sources : M Response :=
  db ← readDB;
  mret (json (SourceItems (sources db))).

(** [GET /api/v1/trending] *)
Definition get_trending : M Response :=
  db ← readDB;
  mret (json (TrendingItems (trending db))).

(** [GET /api/v1/search?q=&page=&limit=] *)
Definition get_search (q page limit : option string) : M Response :=
  if negb (truthy q) then mret (json_error 400 "q parameter required")
  else
    db ← readDB;
    let ql := toLowerCase (or_empty q) in
    let news :=
      List.map (fun x => mkHit "news" (NewsItem x))
        (List.filter (news_matches ql) (news db)) in
    let images :=
      List.map (fun x => mkHit "image" (ImageItem x))
        (List.filter (image_matches ql) (images db)) in
    let combined := news ++ images in
    let pag := paginate combined page limit in
    mret (json (SearchPage pag)).

(** [POST /api/v1/like] with body [{ type, id }] *)
Definition post_like (type id : option string) : M Response :=
  if negb (truthy type) || negb (truthy id)
  then mret (json_error 400 "type and id required")
  else
    let type := or_empty type in
    let id := or_empty id in
    db ← readDB;
    let key := type +:+ "s" in
    let likes1 :=
      match Likes.get (likes db) key with
      | None => Likes.set (likes db) key ∅
      | Some _ => likes db
      end in
    let table := default ∅ (Likes.get likes1 key) in
    let table := set_property table id (increment (get_property table id)) in
    let db := set_likes db (Likes.set likes1 key table) in
    writeDB db;;
    mret (json (LikeBody id type (get_property table id))).

(** [POST /api/v1/feedback] with body [{ message, context }] *)
Definition post_feedback (message context : option string) : M Response :=
  if negb (truthy message) then mret (json_error 400 "message required")
  else
    db ← readDB;
    let entries := default [] (feedback db) in
    id ← nanoid 8;
    createdAt ← toISOString;
    let entry := Feedback.mk id (or_empty message) (or_null context) createdAt in
    let db := set_feedback db (entries ++ [entry]) in
    writeDB db;;
    mret (json StatusOk).

(** [POST /api/v1/admin/news] with body [{ title, summary, url, image, sourceId }] *)
Definition post_admin_news (title summary url image sourceId : option string)
    : M Response :=
  if negb (truthy title) || negb (truthy url)
  then mret (json_error 400 "title and url required")
  else
    db ← readDB;
    suffix ← nanoid 6;
    publishedAt ← toISOString;
    let item :=
      Article.mk ("n" +:+ suffix) title (Some (or_empty summary))
        (or_empty url) (or_empty image) publishedAt (or_null sourceId) in
    let db := set_news db (item :: news db) in
    writeDB db;;
    mret (json (CreatedBody item)).

(** The fallback for any other path. *)
Definition not_found : M Response := mret (json_error 404 "not found").

(** ** Notions of the specification *)

(** [s] contains [q] as a case-insensitive substring: a segment of [s]
    equals [q] up to the case of its letters. *)
Definition contains_ci (s q : string) : Prop :=
  exists pre mid post,
    s = pre +:+ mid +:+ post /\ toLowerCase mid = toLowerCase q.

(** The same for a field that may be missing: a missing field contains
    nothing. *)
Definition field_contains (f : option string) (q : string) : Prop :=
  exists s, f = Some s /\ contains_ci s q.

(** The order of the numbers; [NaN] is not comparable. *)
Definition number_le (a b : number) : Prop :=
  match a, b with
  | NaN, _ | _, NaN => False
  | NegInfinity, _ | _, PosInfinity => True
  | Finite x, Finite y => x <= y
  | _, _ => False
  end.

(** The page that [paginate] computes from what [parseInt] reads. *)
Definition clamped_page (x : number) : number :=
  match x with
  | NaN => Finite 1
  | Finite n => if decide (n < 1) then Finite 1 else Finite n
  | PosInfinity => PosInfinity
  | NegInfinity => Finite 1
  end.

(** The limit that [paginate] computes from what [parseInt] reads. *)
Definition clamped_limit (x : number) : Z :=
  match x with
  | NaN => 10
  | Finite n =>
      if decide (n = 0) then 10
      else if decide (n < 0) then 1
      else if decide (100 < n) then 100
      else n
  | PosInfinity => 100
  | NegInfinity => 1
  end.

(** What the document records for [(type, id)]: the cell of [id] in the
    table of the type, if there is one. *)
Definition cell (db : Document) (type id : string) : option Cell :=
  Likes.get (likes db) (type +:+ "s") ≫= fun table => table !! id.

(** The like counter of [(type, id)]: the number recorded, an absent
    counter being 0; a cell that holds a string is no counter. *)
Definition counter (db : Document) (type id : string) : option Z :=
  match cell db type id with
  | None => Some 0
  | Some (Num n) => Some n
  | Some (Text _) => None
  end.

(** [numeral s n]: [s] is a decimal numeral of [n], a non-empty string of
    digits read most significant first. *)
Inductive numeral : string -> Z -> Prop :=
| numeral_digit (c : ascii) (d : Z) :
    digit_value c = Some d -> numeral (String c "") d
| numeral_snoc (s : string) (n : Z) (c : ascii) (d : Z) :
    numeral s n -> digit_value c = Some d ->
    numeral (s +:+ String c "") (10 * n + d).

(** A field is blank when the request does not carry it or carries the
    empty string: the fields that the handlers' test [!v] rejects. *)
Definition blank (v : option string) : Prop := v = None \/ v = Some "".


(** The document that an accepted like of [(type, id)] makes of [db]: in
    the table of the type, created if need be, [id] is assigned
    [(table[id] || 0) + 1]. *)
Definition liked (db : Document) (type id : string) : Document :=
  let key := type +:+ "s" in
  let table := default ∅ (Likes.get (likes db) key) in
  set_likes db
    (Likes.set (likes db) key
       (set_property table id (increment (get_property table id)))).

(** The invariants of the data model: identifiers are unique within a
    collection, feedback included, and a source reference names a
    source. *)
Definition unique_ids (db : Document) : Prop :=
  NoDup (map Highlight.id (highlights db))
  /\ NoDup (map Article.id (news db))
  /\ NoDup (map Image.id (images db))
  /\ NoDup (map Source.id (sources db))
  /\ NoDup (map Trending.id (trending db))
  /\ NoDup (map Feedback.id (default [] (feedback db))).

Definition known_source (db : Document) (s : string) : Prop :=
  s ∈ map Source.id (sources db).

Definition sources_resolve (db : Document) : Prop :=
  Forall (fun h => known_source db (Highlight.sourceId h)) (highlights db)
  /\ Forall (fun a => forall s, Article.sourceId a = Some s -> known_source db s)
       (news db)
  /\ Forall (fun i => forall s, Image.sourceId i = Some s -> known_source db s)
       (images db).

(** Two documents with the same collections; feedback and like counters
    may differ. *)
Definition same_lists (db db' : Document) : Prop :=
  highlights db' = highlights db /\ news db' = news db
  /\ images db' = images db /\ sources db' = sources db
  /\ trending db' = trending db.


(** A world whose file is absent, with a fixed clock and generator. *)
Definition fresh_world : World :=
  mkWorld None (fun _ => "2024-05-01T10:00:00.000Z") 0 (fun _ => "V1StGX") 0.
(** * Properties *)

(** ** Strings *)

Lemma append_nil_l (t : string) : "" +:+ t = t.
Proof. reflexivity. Qed.

Lemma append_cons (c : ascii) (s t : string) :
  String c s +:+ t = String c (s +:+ t).
Proof. reflexivity. Qed.

Ltac string_simpl :=
  repeat first
    [ rewrite append_nil_l in *
    | rewrite append_cons in *
    | progress simpl in * ].

Lemma append_empty_r (s : string) : s +:+ "" = s.
Proof. induction s as [|c s IH]; string_simpl; [reflexivity | now f_equal]. Qed.

Lemma append_assoc (a b c : string) : (a +:+ b) +:+ c = a +:+ b +:+ c.
Proof. induction a as [|x a IH]; string_simpl; [reflexivity | now f_equal]. Qed.

Lemma append_eq_empty (a b : string) : a +:+ b = "" -> a = "" /\ b = "".
Proof. destruct a; string_simpl; [auto | discriminate]. Qed.

Lemma length_append (a b : string) :
  String.length (a +:+ b) = (String.length a + String.length b)%nat.
Proof. induction a as [|x a IH]; string_simpl; [reflexivity | now f_equal]. Qed.

Lemma append_inj_l (a b c : string) : a +:+ c = b +:+ c -> a = b.
Proof.
  intros H.
  assert (L : String.length a = String.length b).
  { apply (f_equal String.length) in H. rewrite !length_append in H. lia. }
  revert b H L. induction a as [|x a IH]; intros [|y b] H L;
    try discriminate L; [reflexivity |].
  rewrite !append_cons in H. injection H as -> H.
  f_equal. apply IH; [assumption | simpl in L; lia].
Qed.

Lemma prefix_spec (p s : string) :
  String.prefix p s = true <-> exists t, s = p +:+ t.
Proof.
  revert s. induction p as [|c p IH]; intros [|d s]; simpl.
  - split; [intros _; now exists "" | reflexivity].
  - split; [intros _; now exists (String d s) | reflexivity].
  - split; [discriminate | intros [t H]; discriminate].
  - destruct (Ascii.ascii_dec c d) as [->|Hne].
    + rewrite IH. split; intros [t H]; exists t.
      * rewrite append_cons. now rewrite H.
      * rewrite append_cons in H. now injection H.
    + split; [discriminate |].
      intros [t H]. rewrite append_cons in H. injection H. congruence.
Qed.

Lemma includes_spec (s search : string) :
  includes s search = true <-> exists pre post, s = pre +:+ search +:+ post.
Proof.
  induction s as [|c s IH]; cbn [includes].
  - rewrite orb_false_r, prefix_spec. split.
    + intros [t H]. now exists "", t.
    + intros [pre [post H]]. symmetry in H.
      apply append_eq_empty in H as [-> H]. exists post. now rewrite H.
  - rewrite orb_true_iff, prefix_spec, IH. split.
    + intros [[t H] | [pre [post H]]].
      * now exists "", t.
      * exists (String c pre), post. rewrite append_cons. now rewrite H.
    + intros [[|d pre] [post H]]; string_simpl.
      * left. now exists post.
      * right. injection H as _ H. now exists pre, post.
Qed.

Lemma toLowerCase_app (a b : string) :
  toLowerCase (a +:+ b) = toLowerCase a +:+ toLowerCase b.
Proof. induction a as [|c a IH]; string_simpl; [reflexivity | now f_equal]. Qed.

Lemma toLowerCase_app_inv (s a b : string) :
  toLowerCase s = a +:+ b ->
  exists s1 s2, s = s1 +:+ s2 /\ toLowerCase s1 = a /\ toLowerCase s2 = b.
Proof.
  revert s. induction a as [|c a IH]; intros s H; string_simpl.
  - now exists "", s.
  - destruct s as [|d s]; simpl in H; [discriminate |].
    injection H as Hc H. destruct (IH _ H) as (s1 & s2 & -> & <- & <-).
    exists (String d s1), s2. rewrite append_cons. simpl. now rewrite Hc.
Qed.

Lemma toLowerCase_empty (s : string) : toLowerCase s = "" <-> s = "".
Proof. destruct s; simpl; split; (reflexivity || discriminate). Qed.

(** The test of the handlers is containment up to case. *)
Lemma includes_lower_spec (s q : string) :
  includes (toLowerCase s) (toLowerCase q) = true <-> contains_ci s q.
Proof.
  rewrite includes_spec. unfold contains_ci. split.
  - intros (pre' & post' & H).
    apply toLowerCase_app_inv in H as (pre & rest & -> & _ & H).
    apply toLowerCase_app_inv in H as (mid & post & -> & H & _).
    now exists pre, mid, post.
  - intros (pre & mid & post & -> & H).
    exists (toLowerCase pre), (toLowerCase post).
    now rewrite !toLowerCase_app, H.
Qed.

Lemma contains_ci_empty (q : string) : contains_ci "" q -> q = "".
Proof.
  intros (pre & mid & post & H & Hq). symmetry in H.
  apply append_eq_empty in H as [_ H]. apply append_eq_empty in H as [-> _].
  simpl in Hq. symmetry in Hq. now apply toLowerCase_empty.
Qed.

Lemma field_includes_spec (f : option string) (q : string) :
  q <> "" ->
  field_includes f (toLowerCase q) = true <-> field_contains f q.
Proof.
  intros Hq. unfold field_includes, field_contains. destruct f as [s|].
  - rewrite andb_true_iff, negb_true_iff, includes_lower_spec. split.
    + intros [_ H]. now exists s.
    + intros (s' & [= <-] & H). split; [|assumption].
      apply String.eqb_neq. intros ->. now apply contains_ci_empty in H.
  - split; [discriminate | intros (s & H & _); discriminate].
Qed.

(** A missing field contains nothing; no error arises from it. *)
Lemma field_contains_missing (q : string) : ~ field_contains None q.
Proof. intros (s & H & _). discriminate. Qed.

Lemma news_matches_spec (q : string) (x : Article.t) :
  q <> "" ->
  news_matches (toLowerCase q) x = true
  <-> field_contains (Article.title x) q \/ field_contains (Article.summary x) q.
Proof.
  intros Hq. unfold news_matches.
  now rewrite orb_true_iff, !field_includes_spec.
Qed.

Lemma image_matches_spec (q : string) (x : Image.t) :
  q <> "" ->
  image_matches (toLowerCase q) x = true <-> field_contains (Image.title x) q.
Proof. intros Hq. unfold image_matches. now apply field_includes_spec. Qed.

(** The example of the specification. *)
Example uppercase_query_matches :
  field_includes (Some "Economia global em foco") (toLowerCase "ECONOMIA") = true
  /\ field_includes (Some "Tecnologia") (toLowerCase "tech") = false
  /\ field_includes None (toLowerCase "tech") = false.
Proof. repeat split. Qed.

(** ** Truthiness *)

Lemma truthy_false (v : option string) : truthy v = false <-> blank v.
Proof.
  unfold truthy, blank. destruct v as [s|].
  - rewrite negb_false_iff, String.eqb_eq. split.
    + intros ->. now right.
    + intros [H | [= H]]; [discriminate | assumption].
  - split; [now left | reflexivity].
Qed.

Lemma truthy_true (v : option string) :
  truthy v = true <-> exists s, v = Some s /\ s <> "".
Proof.
  unfold truthy. destruct v as [s|].
  - rewrite negb_true_iff, String.eqb_neq. split.
    + intros H. now exists s.
    + now intros (s' & [= <-] & H).
  - split; [discriminate | intros (s & H & _); discriminate].
Qed.

Lemma truthy_Some (s : string) : s <> "" -> truthy (Some s) = true.
Proof. intros H. apply truthy_true. now exists s. Qed.

Lemma truthy_blank (v : option string) : blank v -> truthy v = false.
Proof. apply truthy_false. Qed.

Lemma or_number_nonzero (n d : Z) : n <> 0 -> or_number (Finite n) d = Finite n.
Proof. intros H. unfold or_number. now destruct (Z.eqb_spec n 0). Qed.

(** ** Lists *)

Lemma find_split {A : Type} (f : A -> bool) (l : list A) (a : A) :
  List.find f l = Some a ->
  exists pre post,
    l = pre ++ a :: post /\ f a = true /\ (forall b, b ∈ pre -> f b = false).
Proof.
  induction l as [|x l IH]; simpl; [discriminate |].
  destruct (f x) eqn:Hx.
  - intros [= <-]. exists [], l. repeat split; [assumption |].
    intros b Hb. now apply not_elem_of_nil in Hb.
  - intros H. destruct (IH H) as (pre & post & -> & Ha & Hpre).
    exists (x :: pre), post. repeat split; [assumption |].
    intros b [-> | Hb]%elem_of_cons; auto.
Qed.




Lemma filter_all {A : Type} (l : list A) : List.filter (fun _ => true) l = l.
Proof. induction l as [|x l IH]; simpl; [reflexivity | now f_equal]. Qed.

Lemma filter_nothing {A : Type} (f : A -> bool) (l : list A) :
  (forall x, x ∈ l -> f x = false) -> List.filter f l = [].
Proof.
  induction l as [|x l IH]; intros H; simpl; [reflexivity |].
  rewrite (H x) by apply list_elem_of_here.
  apply IH. intros y Hy. apply H. now apply list_elem_of_further.
Qed.

Lemma filter_filter {A : Type} (f g : A -> bool) (l : list A) :
  List.filter g (List.filter f l) = List.filter (fun x => f x && g x) l.
Proof.
  induction l as [|x l IH]; simpl; [reflexivity |].
  destruct (f x); simpl; [destruct (g x) |]; now rewrite IH.
Qed.

(** ** Numbers *)

Lemma to_double_exact (z : Z) : Z.abs z < two_53 -> to_double z = Finite z.
Proof.
  intros H. unfold to_double.
  now destruct (Z.ltb_spec (Z.abs z) two_53) as [_ | ?]; [| lia].
Qed.

(** Beyond 2^53 an integer is read as the nearest double, a tie going to
    the even one, and as an infinity past the largest double. *)
Example to_double_samples :
  to_double 9007199254740993 = Finite 9007199254740992
  /\ to_double 9007199254740995 = Finite 9007199254740996
  /\ to_double (-9007199254740993) = Finite (-9007199254740992)
  /\ to_double (2 ^ 1024 - 2 ^ 971) = Finite (2 ^ 1024 - 2 ^ 971)
  /\ to_double (2 ^ 1024 - 2 ^ 970 - 1) = Finite (2 ^ 1024 - 2 ^ 971)
  /\ to_double (2 ^ 1024 - 2 ^ 970) = PosInfinity
  /\ to_double (- 2 ^ 1024) = NegInfinity.
Proof. repeat split; vm_compute; reflexivity. Qed.

Lemma page_clamped (x : number) : Math.max 1 (or_number x 1) = clamped_page x.
Proof.
  destruct x as [|n| |]; simpl; try reflexivity.
  destruct (Z.eqb_spec n 0); case_decide; simpl; f_equal; lia.
Qed.

Lemma limit_clamped (x : number) :
  Math.max 1 (Math.min 100 (or_number x 10)) = Finite (clamped_limit x).
Proof.
  destruct x as [|n| |]; simpl; try reflexivity.
  destruct (Z.eqb_spec n 0); repeat case_decide; simpl; f_equal; lia.
Qed.

Lemma clamped_limit_bounds (x : number) : 1 <= clamped_limit x <= 100.
Proof. destruct x as [|n| |]; simpl; repeat case_decide; lia. Qed.

Lemma clamped_page_cases (x : number) :
  clamped_page x = PosInfinity \/ exists z, clamped_page x = Finite z /\ 1 <= z.
Proof.
  destruct x as [|n| |]; simpl; [right; exists 1 | | now left | right; exists 1];
    try (split; [reflexivity | lia]).
  right. case_decide; [exists 1 | exists n]; split; (reflexivity || lia).
Qed.

Lemma number_le_one (p : number) :
  number_le 1 p <-> p = PosInfinity \/ exists z, p = Finite z /\ 1 <= z.
Proof.
  destruct p as [|z| |]; simpl; split;
    try (intros []; fail); try (intros [? | (? & ? & ?)]; discriminate);
    try (now left); try exact (fun _ => I).
  - intros H. right. now exists z.
  - intros [? | (z' & [= <-] & H)]; [discriminate | assumption].
Qed.

(** ** Pagination *)

Lemma slice_window {A : Type} (xs : list A) (start l : Z) :
  0 <= start -> 0 <= l ->
  slice xs (Finite start) (Finite (start + l))
  = take (Z.to_nat l) (drop (Z.to_nat start) xs).
Proof.
  intros Hs Hl. unfold slice, relative_index.
  destruct (Z.ltb_spec start 0) as [?|_]; [lia |].
  destruct (Z.ltb_spec (start + l) 0) as [?|_]; [lia |].
  destruct (Z_lt_le_dec start (Z.of_nat (length xs))) as [Hin | Hout].
  - rewrite (Z.min_l start) by lia.
    destruct (Z_le_gt_dec (start + l) (Z.of_nat (length xs))) as [Hfit | Hcut].
    + rewrite Z.min_l by lia. f_equal. lia.
    + rewrite Z.min_r by lia.
      rewrite !take_ge; [reflexivity | |]; rewrite length_drop; lia.
  - rewrite (Z.min_r start) by lia. rewrite Z.min_r by lia.
    rewrite Z.sub_diag. simpl. rewrite take_0.
    rewrite (drop_ge xs (Z.to_nat start)) by lia. now rewrite take_nil.
Qed.

(** From an infinite start on, there is nothing. *)
Lemma slice_infinite {A : Type} (xs : list A) :
  slice xs PosInfinity PosInfinity = [].
Proof. unfold slice, relative_index. now rewrite Z.sub_diag. Qed.

Lemma ceil_div_bounds (n d : Z) :
  0 < d -> (ceil_div n d - 1) * d < n <= ceil_div n d * d.
Proof.
  intros Hd. unfold ceil_div.
  pose proof (Z.mul_div_le (- n) d Hd).
  pose proof (Z.mul_succ_div_gt (- n) d Hd).
  nia.
Qed.

(** The bounds of the slice, for a page that is at least 1. *)
Lemma page_window (p : number) (l : Z) :
  1 <= l ->
  (p = PosInfinity \/ exists z, p = Finite z /\ 1 <= z) ->
  forall (A : Type) (items : list A),
    slice items (number_mul (number_sub p 1) l)
      (number_add (number_mul (number_sub p 1) l) l)
    = match p with
      | Finite z => take (Z.to_nat l) (drop (Z.to_nat ((z - 1) * l)) items)
      | _ => []
      end
    /\ slice items (number_mul (number_sub p 1) l) (number_mul p l)
       = slice items (number_mul (number_sub p 1) l)
           (number_add (number_mul (number_sub p 1) l) l).
Proof.
  intros Hl [-> | (z & -> & Hz)] A items.
  - simpl. destruct (Z.eqb_spec l 0) as [?|_]; [lia |].
    destruct (Z.ltb_spec l 0) as [?|_]; [lia |].
    simpl. split; [apply slice_infinite | reflexivity].
  - simpl. split.
    + apply slice_window; [apply Z.mul_nonneg_nonneg |]; lia.
    + do 2 f_equal. lia.
Qed.

Lemma paginate_fields {A : Type} (items : list A) (page_arg limit_arg : option string) :
  let p := clamped_page (parseInt_or page_arg 1) in
  let l := clamped_limit (parseInt_or limit_arg 10) in
  let n := Z.of_nat (length items) in
  paginate items page_arg limit_arg
  = mkEnvelope p l n (ceil_div n l)
      match p with
      | Finite z => take (Z.to_nat l) (drop (Z.to_nat ((z - 1) * l)) items)
      | _ => []
      end.
Proof.
  intros p l n. unfold paginate. rewrite page_clamped, limit_clamped.
  fold p l n.
  pose proof (clamped_limit_bounds (parseInt_or limit_arg 10)) as Hl. fold l in Hl.
  destruct (page_window p l ltac:(lia)
              (clamped_page_cases (parseInt_or page_arg 1)) A items) as [-> _].
  unfold ceil_quotient. destruct (Z.eqb_spec l 0) as [?|_]; [lia |].
  reflexivity.
Qed.

Lemma paginate_nil {A : Type} (page_arg limit_arg : option string) :
  total (paginate (@nil A) page_arg limit_arg) = 0
  /\ pages (paginate (@nil A) page_arg limit_arg) = Finite 0
  /\ data (paginate (@nil A) page_arg limit_arg) = [].
Proof.
  rewrite paginate_fields. cbn [total pages data length Z.of_nat].
  split; [reflexivity |]. split.
  - unfold ceil_div. change (- 0) with 0. now rewrite Zdiv_0_l.
  - destruct (clamped_page _); try reflexivity.
    rewrite drop_nil. apply take_nil.
Qed.

(** *** Exact bounds and rounded bounds *)

Lemma round_half_even_lower (a e : Z) :
  0 <= a -> 0 <= e -> a / 2 ^ e * 2 ^ e <= round_half_even a e.
Proof.
  intros Ha He. unfold round_half_even.
  assert (0 < 2 ^ e) by (apply Z.pow_pos_nonneg; lia).
  repeat match goal with |- context [if ?b then _ else _] => destruct b end; nia.
Qed.

(** From 2^53 on, the double of an integer is at least 2^53, or infinite. *)
Lemma to_double_large (z : Z) :
  two_53 <= z ->
  to_double z = PosInfinity \/ exists m, to_double z = Finite m /\ two_53 <= m.
Proof.
  intros Hz. unfold to_double.
  assert (Ha : Z.abs z = z) by (unfold two_53 in Hz; lia). rewrite Ha.
  destruct (Z.ltb_spec z two_53) as [?|_]; [lia |].
  destruct (Z.leb_spec (2 ^ 1024) (round_half_even z (Z.log2 z - 52))) as [_|_].
  - destruct (Z.ltb_spec z 0) as [?|_]; [unfold two_53 in Hz; lia | now left].
  - right. eexists. split; [reflexivity |].
    assert (Hpos : 0 < z) by (unfold two_53 in Hz; lia).
    assert (Hsgn : Z.sgn z = 1) by (apply Z.sgn_pos; lia). rewrite Hsgn, Z.mul_1_l.
    destruct (Z.log2_spec z Hpos) as [Hlo Hhi].
    assert (Hlog : 53 <= Z.log2 z).
    { apply Z.log2_le_pow2; [lia |]. exact Hz. }
    set (e := Z.log2 z - 52) in *.
    assert (He : 0 <= e) by (subst e; lia).
    pose proof (round_half_even_lower z e ltac:(lia) He) as Hr.
    assert (Hq : 2 ^ 52 <= z / 2 ^ e).
    { apply Z.div_le_lower_bound; [apply Z.pow_pos_nonneg; lia |].
      rewrite Z.mul_comm, <- Z.pow_add_r by lia.
      replace (52 + e) with (Z.log2 z) by (subst e; lia). exact Hlo. }
    assert (H2e : 2 <= 2 ^ e).
    { change 2 with (2 ^ 1) at 1. apply Z.pow_le_mono_r; subst e; lia. }
    unfold two_53. change 9007199254740992 with (2 ^ 52 * 2).
    etransitivity; [|exact Hr].
    apply Z.mul_le_mono_nonneg; lia.
Qed.

Lemma rounded_cases (z : Z) :
  0 <= z ->
  (z < two_53 /\ rounded (Finite z) = Finite z)
  \/ (two_53 <= z
      /\ (rounded (Finite z) = PosInfinity
          \/ exists m, rounded (Finite z) = Finite m /\ two_53 <= m)).
Proof.
  intros Hz. destruct (Z_lt_le_dec z two_53) as [Hs | Hb].
  - left. split; [assumption |]. apply to_double_exact. lia.
  - right. split; [assumption |]. now apply to_double_large.
Qed.

(** A bound at or past the end of the list denotes the end. *)
Lemma relative_index_end (len : Z) (x : number) :
  0 <= len ->
  (x = PosInfinity \/ exists m, x = Finite m /\ len <= m) ->
  relative_index len x = len.
Proof.
  intros Hlen [-> | (m & -> & Hm)]; [reflexivity |].
  unfold relative_index. destruct (Z.ltb_spec m 0); lia.
Qed.

Lemma slice_from_the_end {A : Type} (xs : list A) (start end_ : number) :
  relative_index (Z.of_nat (length xs)) start = Z.of_nat (length xs) ->
  slice xs start end_ = [].
Proof.
  intros H. unfold slice. rewrite H, Nat2Z.id, drop_all. apply take_nil.
Qed.

(** The bounds that [paginate] gives to [slice] are exact in the model,
    rounded after each operation in the engine.  The slice is the same:
    for a list shorter than 2^53, as every array is, rounding the
    difference, the product and the sum changes nothing. *)
Lemma rounded_bounds_same_slice {A : Type} (items : list A) (p : number) (l : Z) :
  Z.of_nat (length items) < two_53 -> number_le 1 p -> 1 <= l <= 100 ->
  let start := rounded (number_mul (rounded (number_sub p 1)) l) in
  slice items start (rounded (number_add start l))
  = slice items (number_mul (number_sub p 1) l)
      (number_add (number_mul (number_sub p 1) l) l).
Proof.
  intros Hlen Hp Hl. apply number_le_one in Hp as [-> | (z & -> & Hz)].
  - simpl. destruct (Z.eqb_spec l 0) as [?|_]; [lia |].
    destruct (Z.ltb_spec l 0) as [?|_]; [lia | reflexivity].
  - cbn [number_sub]. set (len := Z.of_nat (length items)) in *.
    assert (Hlen0 : 0 <= len) by (subst len; lia).
    assert (Hexact : forall s, two_53 <= s ->
              slice items (Finite s) (number_add (Finite s) l) = []).
    { intros s Hs. apply slice_from_the_end, relative_index_end; [lia |].
      right. exists s. split; [reflexivity | fold len; lia]. }
    assert (Hround : forall x e,
              (x = PosInfinity \/ exists m, x = Finite m /\ two_53 <= m) ->
              slice items x e = []).
    { intros x e Hx. apply slice_from_the_end, relative_index_end; [lia |].
      destruct Hx as [-> | (m & -> & Hm)]; [now left |].
      right. exists m. split; [reflexivity | fold len; lia]. }
    destruct (rounded_cases (z - 1) ltac:(lia)) as [[Hs1 ->] | [Hb1 Hr1]].
    + cbn [number_mul].
      assert (0 <= (z - 1) * l) by (apply Z.mul_nonneg_nonneg; lia).
      destruct (rounded_cases ((z - 1) * l) ltac:(lia)) as [[Hs2 ->] | [Hb2 Hr2]].
      * cbn [number_add].
        destruct (rounded_cases ((z - 1) * l + l) ltac:(lia))
          as [[Hs3 ->] | [Hb3 Hr3]]; [reflexivity |].
        assert (E1 : relative_index len (Finite ((z - 1) * l + l)) = len).
        { apply relative_index_end; [lia |].
          right. eexists. split; [reflexivity | lia]. }
        assert (E2 : relative_index len (rounded (Finite ((z - 1) * l + l))) = len).
        { apply relative_index_end; [lia |].
          destruct Hr3 as [-> | (m & -> & Hm)]; [now left |].
          right. exists m. split; [reflexivity | lia]. }
        unfold slice. fold len. now rewrite E1, E2.
      * rewrite (Hround _ _ Hr2). symmetry. now apply Hexact.
    + assert (Hb2 : two_53 <= (z - 1) * l) by nia.
      change (number_mul (Finite (z - 1)) (Finite l)) with (Finite ((z - 1) * l)).
      rewrite (Hexact _ Hb2).
      apply Hround.
      destruct Hr1 as [-> | (m & -> & Hm)].
      * left. simpl. destruct (Z.eqb_spec l 0) as [?|_]; [lia |].
        now destruct (Z.ltb_spec l 0) as [?|_]; [lia |].
      * cbn [number_mul]. apply to_double_large. nia.
Qed.

(** *** Every number below 2^53 is the reading of some argument *)

Lemma parse_digits_numeral (s : string) (n : Z) :
  numeral s n ->
  forall rest, parse_digits (s +:+ rest) None = parse_digits rest (Some n).
Proof.
  induction 1 as [c d Hd | s n c d _ IH Hd]; intros rest.
  - rewrite append_cons, append_nil_l. simpl. rewrite Hd. simpl.
    now replace (0 + d) with d by lia.
  - rewrite append_assoc, IH, append_cons, append_nil_l. simpl.
    now rewrite Hd.
Qed.

Lemma digit_is_plain (c : ascii) (d : Z) :
  digit_value c = Some d ->
  is_white_space c = false /\ c <> "-"%char /\ c <> "+"%char.
Proof.
  unfold digit_value, is_white_space. intros H.
  destruct (48 <=? N_of_ascii c)%N eqn:Hlo; [|discriminate].
  destruct (N_of_ascii c <=? 57)%N eqn:Hhi; [|discriminate].
  apply N.leb_le in Hlo, Hhi.
  repeat split.
  - repeat (apply orb_false_iff; split);
      try (apply andb_false_iff; right; apply N.leb_gt; lia);
      apply N.eqb_neq; lia.
  - intros ->. simpl in Hlo. lia.
  - intros ->. simpl in Hlo. lia.
Qed.

Lemma numeral_head (s : string) (n : Z) :
  numeral s n -> exists c d s', s = String c s' /\ digit_value c = Some d.
Proof.
  induction 1 as [c d Hd | s n c d _ (c0 & d0 & s' & -> & Hd0) Hd].
  - now exists c, d, "".
  - exists c0, d0, (s' +:+ String c ""). now rewrite append_cons.
Qed.

Lemma read_integer_numeral (s : string) (n : Z) :
  numeral s n -> read_integer s = Some n.
Proof.
  intros H. destruct (numeral_head s n H) as (c & d & s' & -> & Hd).
  destruct (digit_is_plain c d Hd) as (Hw & Hm & Hp).
  pose proof (parse_digits_numeral _ n H "") as Hr.
  rewrite append_empty_r in Hr. cbn [parse_digits] in Hr.
  unfold read_integer. cbn [trim_start]. rewrite Hw.
  destruct c as [[] [] [] [] [] [] [] []];
    first [exact Hr | now destruct Hm | now destruct Hp].
Qed.

Lemma digit_value_onto (d : Z) :
  0 <= d <= 9 -> exists c, digit_value c = Some d.
Proof.
  intros H. exists (ascii_of_N (48 + Z.to_N d)).
  assert (d = 0 \/ d = 1 \/ d = 2 \/ d = 3 \/ d = 4 \/ d = 5 \/ d = 6
          \/ d = 7 \/ d = 8 \/ d = 9) as Hd by lia.
  repeat destruct Hd as [-> | Hd]; try subst d; reflexivity.
Qed.

Lemma numeral_onto (n : Z) : 0 <= n -> exists s, numeral s n.
Proof.
  intros Hn. generalize Hn. pattern n. apply Z_lt_induction; [|assumption].
  clear n Hn. intros n IH Hn.
  destruct (Z_lt_le_dec n 10) as [Hsmall | Hbig].
  - destruct (digit_value_onto n) as [c Hc]; [lia |].
    exists (String c ""). now constructor.
  - destruct (IH (n / 10)) as [s Hs].
    { split; [apply Z.div_pos; lia | apply Z.div_lt; lia]. }
    { apply Z.div_pos; lia. }
    destruct (digit_value_onto (n mod 10)) as [c Hc].
    { pose proof (Z.mod_pos_bound n 10). lia. }
    exists (s +:+ String c "").
    rewrite (Z.div_mod n 10) at 1 by lia. now constructor.
Qed.

(** A numeral is read as the double of its integer: as the integer itself
    below 2^53. *)
Lemma parseInt_numeral (s : string) (n : Z) :
  numeral s n -> parseInt s = to_double n.
Proof. intros H. unfold parseInt. now rewrite (read_integer_numeral s n H). Qed.

(** Every page number and every limit below 2^53 is what [parseInt] reads
    from some argument: the hypotheses of [paginate_contract] below can be
    met for all of them. *)
Lemma parseInt_onto (n : Z) :
  0 <= n < two_53 -> exists s, parseInt s = Finite n.
Proof.
  intros Hn. destruct (numeral_onto n) as [s Hs]; [lia |].
  exists s. rewrite (parseInt_numeral s n Hs). apply to_double_exact. lia.
Qed.

(** [parseInt] on the strings of the examples below: text that does not
    start with a number is [NaN], a number may be followed by anything,
    and a numeral beyond 2^53 is read as the nearest double. *)
Example parseInt_samples :
  parseInt "abc" = NaN /\ parseInt "" = NaN /\ parseInt "-" = NaN
  /\ parseInt "12" = Finite 12 /\ parseInt "  -12px" = Finite (-12)
  /\ parseInt "+7" = Finite 7 /\ parseInt "1e3" = Finite 1
  /\ parseInt "0" = Finite 0
  /\ parseInt "123456789012345678901234567890"
     = Finite 123456789012345677877719597056.
Proof. repeat split; vm_compute; reflexivity. Qed.

(** *** The envelope *)

(** C2, as the claim states it, fails on the page echoed: the page is the
    number that [parseInt] reads, a double, and beyond 2^53 that is not
    the integer written.  The argument below is the numeral of
    9007199254740993; the envelope carries the page 9007199254740992. *)
Lemma paginate_page_is_rounded :
  numeral "9007199254740993" 9007199254740993
  /\ page (paginate ["a"] (Some "9007199254740993") (Some "10"))
     = Finite 9007199254740992.
Proof.
  split; [|vm_compute; reflexivity].
  change "9007199254740993"
    with ((((((((((((((("9" +:+ "0") +:+ "0") +:+ "7") +:+ "1") +:+ "9") +:+ "9")
            +:+ "2") +:+ "5") +:+ "4") +:+ "7") +:+ "4") +:+ "0") +:+ "9") +:+ "9")
          +:+ "3").
  change 9007199254740993
    with (10 * (10 * (10 * (10 * (10 * (10 * (10 * (10 * (10 * (10 * (10 * (10
            * (10 * (10 * (10 * 9 + 0) + 0) + 7) + 1) + 9) + 9) + 2) + 5) + 4)
            + 7) + 4) + 0) + 9) + 9) + 3).
  repeat (apply numeral_snoc; [| reflexivity]). now apply numeral_digit.
Qed.

(** C2, amended.  For the page [p >= 1] and the limit [l] in [1, 100] that
    [parseInt] reads from the arguments (doubles: an integer beyond 2^53
    is read as the nearest one, and as [Infinity] past the largest),
    [paginate] echoes [p] and [l], reports the length of the input as
    [total] and the ceiling of [total / l] as [pages], and returns as
    [data] the slice of the input from index [(p - 1) * l] up to [p * l],
    in input order; its length is [max 0 (min l (total - (p - 1) * l))],
    and it is empty for an infinite page. *)
Theorem paginate_contract {A : Type} (items : list A)
    (page_arg limit_arg : option string) (p : number) (l : Z) :
  parseInt_or page_arg 1 = p ->
  parseInt_or limit_arg 10 = Finite l ->
  number_le 1 p -> 1 <= l <= 100 ->
  let r := paginate items page_arg limit_arg in
  let n := Z.of_nat (length items) in
  page r = p /\ limit r = l /\ total r = n
  /\ pages r = ceil_div n l /\ (ceil_div n l - 1) * l < n <= ceil_div n l * l
  /\ data r = slice items (number_mul (number_sub p 1) l) (number_mul p l)
  /\ (forall k : Z, p = Finite k ->
        Z.of_nat (length (data r)) = Z.max 0 (Z.min l (n - (k - 1) * l))
        /\ forall i : nat,
             data r !! i
             = if decide (Z.of_nat i < l)
               then items !! (Z.to_nat ((k - 1) * l) + i)%nat
               else None)
  /\ (p = PosInfinity -> data r = []).
Proof.
  intros Hp Hl Hp1 Hl1 r n.
  apply number_le_one in Hp1.
  assert (Hcp : clamped_page p = p).
  { destruct Hp1 as [-> | (z & -> & Hz)]; [reflexivity |].
    simpl. case_decide; [lia | reflexivity]. }
  assert (Hcl : clamped_limit (Finite l) = l).
  { simpl. repeat case_decide; lia. }
  assert (Hr : r = mkEnvelope p l n (ceil_div n l)
                 match p with
                 | Finite z => take (Z.to_nat l) (drop (Z.to_nat ((z - 1) * l)) items)
                 | _ => []
                 end).
  { subst r. rewrite paginate_fields, Hp, Hl, Hcp, Hcl. reflexivity. }
  rewrite Hr. cbn [page limit total pages data].
  destruct (page_window p l ltac:(lia) Hp1 A items) as [Hw Hw'].
  do 4 (split; [reflexivity |]).
  split; [apply ceil_div_bounds; lia |].
  split; [now rewrite Hw', Hw |].
  split; [|now intros ->].
  intros k Hk. rewrite Hk in Hp1 |- *.
  assert (1 <= k) by (destruct Hp1 as [? | (z & [= <-] & ?)]; [discriminate | lia]).
  assert (0 <= (k - 1) * l) by (apply Z.mul_nonneg_nonneg; lia).
  split.
  - rewrite length_take, length_drop. fold n. lia.
  - intros i. destruct (decide (Z.of_nat i < l)) as [Hi | Hi].
    + rewrite lookup_take_lt by lia. apply lookup_drop.
    + apply lookup_take_ge. lia.
Qed.

Lemma paginate_contract_witness :
  let r := paginate ["a"; "b"; "c"; "d"; "e"] (Some "2") (Some " 2px") in
  page r = Finite 2 /\ limit r = Finite 2 /\ total r = 5
  /\ pages r = Finite 3
  /\ data r = ["c"; "d"].
Proof.
  destruct (paginate_contract ["a"; "b"; "c"; "d"; "e"] (Some "2") (Some " 2px")
              (Finite 2) 2 eq_refl eq_refl ltac:(simpl; lia) ltac:(lia))
    as (Hp & Hl & Ht & Hn & _ & Hd & _).
  repeat split; assumption.
Defined.

(** The slice that [paginate_contract] describes, at the witness. *)
Example paginate_second_page :
  paginate ["a"; "b"; "c"; "d"; "e"] (Some "2") (Some " 2px")
  = mkEnvelope 2 2 5 3 ["c"; "d"].
Proof. reflexivity. Qed.

(** A page past the end is empty, not an error. *)
Example paginate_past_the_end :
  paginate ["a"; "b"; "c"] (Some "7") None = mkEnvelope 7 10 3 1 [].
Proof. reflexivity. Qed.

(** So is the page of a numeral past the largest double, here 1 followed
    by 309 zeros: it is read as [Infinity]. *)
Example paginate_infinite_page :
  paginate ["a"; "b"; "c"]
    (Some ("1" +:+ String.concat "" (List.repeat "0" 309%nat)))
    None
  = mkEnvelope PosInfinity 10 3 1 [].
Proof. vm_compute. reflexivity. Qed.

(** C3, as the claim states it, fails on the limit: a limit above 100 is
    clamped to 100 and a negative limit to 1; neither falls back to 10. *)
Lemma paginate_limit_out_of_range :
  limit (paginate ["a"] None (Some "500")) = 100
  /\ limit (paginate ["a"] None (Some "-5")) = 1.
Proof. split; reflexivity. Qed.

(** C3, amended.  [paginate] returns an envelope for every list and every
    pair of arguments.  The page is 1 when the argument is missing, not a
    number, zero or negative, and the number read otherwise.  The limit is
    10 when the argument is missing, not a number or zero; a negative
    limit is clamped to 1 and a limit above 100 to 100. *)
Theorem paginate_fallbacks {A : Type} (items : list A)
    (page_arg limit_arg : option string) :
  let r := paginate items page_arg limit_arg in
  page r = match parseInt_or page_arg 1 with
           | NaN => Finite 1
           | Finite n => if decide (n < 1) then Finite 1 else Finite n
           | PosInfinity => PosInfinity
           | NegInfinity => Finite 1
           end
  /\ limit r = match parseInt_or limit_arg 10 with
               | NaN => Finite 10
               | Finite n =>
                   if decide (n = 0) then Finite 10
                   else if decide (n < 0) then Finite 1
                   else if decide (100 < n) then Finite 100
                   else Finite n
               | PosInfinity => Finite 100
               | NegInfinity => Finite 1
               end
  /\ page (paginate items None limit_arg) = 1
  /\ limit (paginate items page_arg None) = 10
  /\ number_le 1 (page r)
  /\ number_le 1 (limit r) /\ number_le (limit r) 100
  /\ total r = Z.of_nat (length items)
  /\ data r = slice items (number_mul (number_sub (page r) 1) (limit r))
                (number_mul (page r) (limit r)).
Proof.
  intros r. subst r. rewrite !paginate_fields.
  cbn [page limit total data].
  pose proof (clamped_limit_bounds (parseInt_or limit_arg 10)) as Hl.
  pose proof (clamped_page_cases (parseInt_or page_arg 1)) as Hp.
  split; [reflexivity |].
  split.
  { destruct (parseInt_or limit_arg 10) as [|n| |]; simpl; try reflexivity.
    now repeat case_decide. }
  split; [reflexivity |]. split; [reflexivity |].
  split; [now apply number_le_one |].
  split; [cbn [number_le]; lia |]. split; [cbn [number_le]; lia |].
  split; [reflexivity |].
  destruct (page_window _ (clamped_limit (parseInt_or limit_arg 10))
              ltac:(lia) Hp A items) as [Hw Hw'].
  now rewrite Hw', Hw.
Qed.

(** ** Document store *)

Lemma bind_Ok {A B : Type} (m : M A) (f : A -> M B) (w w' : World) (a : A) :
  m w = (Ok a, w') -> (m ≫= f) w = f a w'.
Proof. intros H. unfold mbind, M_bind. now rewrite H. Qed.

Lemma readDB_present (w : World) (db : Document) :
  disk w = Some db -> readDB w = (Ok db, w).
Proof.
  intros H. unfold readDB, mbind, M_bind, existsSync, readFileSync, mret, M_ret.
  rewrite H. rewrite bool_decide_eq_true_2 by eauto. simpl. now rewrite H.
Qed.

Lemma readDB_absent (w : World) :
  disk w = None ->
  let seed := initial_data (clock w (ticks w)) in
  readDB w
  = (Ok seed, mkWorld (Some seed) (clock w) (S (ticks w)) (entropy w) (draws w)).
Proof.
  intros H. unfold readDB, mbind, M_bind, existsSync, mret, M_ret.
  rewrite H. rewrite bool_decide_eq_false_2 by (intros [? ?]; discriminate).
  reflexivity.
Qed.

(** [readDB] never throws; it leaves the document it returns on disk, and
    touches nothing when the file is there. *)
Lemma readDB_total (w : World) :
  exists db w',
    readDB w = (Ok db, w') /\ disk w' = Some db
    /\ clock w' = clock w /\ entropy w' = entropy w /\ draws w' = draws w
    /\ (forall db0, disk w = Some db0 -> db = db0 /\ w' = w).
Proof.
  destruct (disk w) as [db|] eqn:H.
  - exists db, w. rewrite (readDB_present w db H).
    split; [reflexivity |]. split; [assumption |].
    do 3 (split; [reflexivity |]). now intros db0 [= <-].
  - eexists _, _. rewrite (readDB_absent w H).
    split; [reflexivity |]. do 4 (split; [reflexivity |]). discriminate.
Qed.

(** A closed decidable proposition, settled by evaluation. *)
Ltac by_decision :=
  match goal with
  | |- ?P => apply (bool_decide_unpack P); vm_compute; exact I
  end.

Lemma unique_ids_initial (now : string) : unique_ids (initial_data now).
Proof. unfold unique_ids. simpl. repeat split; by_decision. Qed.

Lemma sources_resolve_initial (now : string) : sources_resolve (initial_data now).
Proof.
  unfold sources_resolve, known_source. simpl.
  repeat split; repeat (apply Forall_cons; split); try apply Forall_nil_2;
    try (intros s [= <-]); by_decision.
Qed.

(** C1, as the claim states it, fails on the like counters: the seed
    document records likes for both articles and for the image. *)
Lemma load_seed_counters_not_empty :
  exists db w',
    readDB fresh_world = (Ok db, w')
    /\ Likes.articles (likes db) !! "n1" = Some (Num 12)
    /\ Likes.articles (likes db) !! "n2" = Some (Num 5)
    /\ Likes.images (likes db) !! "img1" = Some (Num 3).
Proof.
  eexists _, _. split; [apply readDB_absent; reflexivity |].
  simpl. repeat split; by simplify_map_eq.
Qed.

(** C1, amended.  When [db.json] is absent, [readDB] synthesizes the seed
    document (the fixed sample highlight, articles, image, sources and
    trending topics, stamped with the current time, and like counters
    recording 12 and 5 likes for the two articles and 3 for the image),
    writes it to the file and returns exactly that document; the document
    satisfies the invariants of the data model, and the next [readDB]
    returns it again from the file. *)
Theorem load_seeds_absent_store (w : World) :
  disk w = None ->
  let now := clock w (ticks w) in
  let seed := initial_data now in
  let w' := mkWorld (Some seed) (clock w) (S (ticks w)) (entropy w) (draws w) in
  readDB w = (Ok seed, w')
  /\ readDB w' = (Ok seed, w')
  /\ map Highlight.id (highlights seed) = ["h1"]
  /\ map Article.id (news seed) = ["n1"; "n2"]
  /\ map Image.id (images seed) = ["img1"]
  /\ map Source.id (sources seed) = ["s1"; "s2"; "s3"]
  /\ map Trending.topic (trending seed) = ["Economia"; "IA"]
  /\ likes seed
     = Likes.mk {[ "n1" := Num 12; "n2" := Num 5 ]} {[ "img1" := Num 3 ]} ∅
  /\ feedback seed = None
  /\ createdAt seed = now
  /\ Forall (fun a => Article.publishedAt a = now) (news seed)
  /\ unique_ids seed /\ sources_resolve seed.
Proof.
  intros H now seed w'.
  split; [exact (readDB_absent w H) |].
  split; [now apply readDB_present |].
  do 8 (split; [reflexivity |]).
  split; [repeat constructor |].
  split; [apply unique_ids_initial | apply sources_resolve_initial].
Qed.

Lemma load_seeds_absent_store_witness :
  readDB fresh_world
  = (Ok (initial_data "2024-05-01T10:00:00.000Z"),
     mkWorld (Some (initial_data "2024-05-01T10:00:00.000Z"))
       (clock fresh_world) 1 (entropy fresh_world) 0).
Proof. exact (proj1 (load_seeds_absent_store fresh_world eq_refl)). Defined.

(** ** Objects *)

Lemma inherited_names (name : string) (v : Value) :
  inherited name = Some v -> name ∈ "__proto__" :: map fst object_prototype.
Proof.
  unfold inherited. destruct (String.eqb_spec name "__proto__") as [-> | _].
  - intros _. apply list_elem_of_here.
  - destruct (List.find _ object_prototype) as [entry|] eqn:Hf; [|discriminate].
    intros _. apply find_some in Hf as [Hin Heq].
    apply String.eqb_eq in Heq as <-.
    apply list_elem_of_further, list_elem_of_In, in_map, Hin.
Qed.

Lemma proto_inherited : inherited "__proto__" = Some ObjectPrototype.
Proof. reflexivity. Qed.

Lemma not_inherited_not_proto (name : string) :
  inherited name = None -> String.eqb name "__proto__" = false.
Proof.
  intros H. destruct (String.eqb_spec name "__proto__") as [-> | _];
    [discriminate H | reflexivity].
Qed.

Lemma last_of_append (t : string) (c : ascii) :
  String.get (String.length t) (t +:+ String c "") = Some c.
Proof. induction t as [|d t IH]; string_simpl; [reflexivity | exact IH]. Qed.

(** No property of [Object.prototype] has a name that ends in [s]: the
    key of a counter table is never inherited. *)
Lemma type_key_not_inherited (t : string) : inherited (t +:+ "s") = None.
Proof.
  destruct (inherited (t +:+ "s")) as [v|] eqn:Hv; [|reflexivity].
  exfalso. apply inherited_names in Hv.
  pose proof (last_of_append t "s") as Hlast.
  assert (Hlen : String.length t = Nat.pred (String.length (t +:+ "s"))).
  { rewrite length_append. simpl. lia. }
  rewrite Hlen in Hlast. clear Hlen.
  remember (t +:+ "s") as key eqn:Hkey. clear Hkey.
  simpl in Hv.
  repeat (apply elem_of_cons in Hv as [-> | Hv]; [discriminate Hlast |]).
  now apply not_elem_of_nil in Hv.
Qed.

(** Nor does one start with [n]: the id of a created article is never
    inherited. *)
Lemma created_id_not_inherited (suffix : string) :
  inherited ("n" +:+ suffix) = None.
Proof.
  destruct (inherited ("n" +:+ suffix)) as [v|] eqn:Hv; [|reflexivity].
  exfalso. apply inherited_names in Hv. rewrite append_cons in Hv.
  simpl in Hv.
  repeat (apply elem_of_cons in Hv as [Hv | Hv]; [discriminate Hv |]).
  now apply not_elem_of_nil in Hv.
Qed.

Lemma get_property_own (table : gmap string Cell) (name : string) (c : Cell) :
  table !! name = Some c -> get_property table name = cell_value c.
Proof. intros H. unfold get_property. now rewrite H. Qed.

Lemma get_property_absent (table : gmap string Cell) (name : string) :
  table !! name = None -> inherited name = None ->
  get_property table name = Undefined.
Proof. intros H Hi. unfold get_property. now rewrite H, Hi. Qed.

Lemma set_property_insert (table : gmap string Cell) (name : string) (v : Cell) :
  inherited name = None -> set_property table name v = <[name := v]> table.
Proof.
  intros Hi. unfold set_property. rewrite (not_inherited_not_proto name Hi).
  now destruct (table !! name).
Qed.

Lemma set_property_other (table : gmap string Cell) (name name' : string) (v : Cell) :
  name <> name' -> set_property table name v !! name' = table !! name'.
Proof.
  intros Hne. unfold set_property.
  destruct (table !! name); [now apply lookup_insert_ne |].
  destruct (String.eqb name "__proto__"); [reflexivity | now apply lookup_insert_ne].
Qed.

(** Without an own property, [__proto__] cannot be assigned a number or a
    string: the table stays as it is. *)
Lemma set_property_proto (table : gmap string Cell) (v : Cell) :
  table !! "__proto__" = None -> set_property table "__proto__" v = table.
Proof. intros H. unfold set_property. now rewrite H. Qed.

(** ** Like tables *)

Lemma likes_get_set (l : Likes.t) (k : string) (t : gmap string Cell) :
  Likes.get (Likes.set l k t) k = Some t.
Proof.
  unfold Likes.get, Likes.set.
  destruct (String.eqb_spec k "articles") as [->|Ha]; [reflexivity |].
  destruct (String.eqb_spec k "images") as [->|Hi]; [reflexivity |].
  simpl. apply lookup_insert_eq.
Qed.

Lemma likes_get_set_ne (l : Likes.t) (k k' : string) (t : gmap string Cell) :
  k <> k' -> Likes.get (Likes.set l k t) k' = Likes.get l k'.
Proof.
  intros Hne. unfold Likes.get, Likes.set.
  destruct (String.eqb_spec k "articles") as [Ea|Ea];
    destruct (String.eqb_spec k "images") as [Ei|Ei];
    destruct (String.eqb_spec k' "articles") as [Ea'|Ea'];
    destruct (String.eqb_spec k' "images") as [Ei'|Ei'];
    simpl; try congruence.
  now apply lookup_insert_ne.
Qed.

Lemma likes_set_set (l : Likes.t) (k : string) (t t' : gmap string Cell) :
  Likes.set (Likes.set l k t) k t' = Likes.set l k t'.
Proof.
  unfold Likes.set.
  destruct (String.eqb_spec k "articles") as [->|Ha]; [reflexivity |].
  destruct (String.eqb_spec k "images") as [->|Hi]; [reflexivity |].
  simpl. now rewrite insert_insert_eq.
Qed.

(** What the table of a type holds for [id]: the cell of the document. *)
Lemma cell_lookup (db : Document) (t i : string) :
  default ∅ (Likes.get (likes db) (t +:+ "s")) !! i = cell db t i.
Proof. unfold cell. now destruct (Likes.get (likes db) (t +:+ "s")). Qed.

(** A counter is what [table[id]] reads, for an id that is not inherited. *)
Lemma counter_read (db : Document) (t i : string) (n : Z) :
  inherited i = None -> counter db t i = Some n ->
  increment (get_property (default ∅ (Likes.get (likes db) (t +:+ "s"))) i)
  = Num (n + 1).
Proof.
  intros Hi Hc. unfold counter in Hc. unfold get_property.
  rewrite cell_lookup, Hi.
  destruct (cell db t i) as [[k | s] |]; simplify_eq; reflexivity.
Qed.

Lemma cell_liked (db : Document) (t i : string) (n : Z) :
  inherited i = None -> counter db t i = Some n ->
  cell (liked db t i) t i = Some (Num (n + 1)).
Proof.
  intros Hi Hc. unfold liked. unfold cell at 1. cbn [likes set_likes].
  rewrite likes_get_set. cbn [mbind option_bind].
  rewrite (counter_read db t i n Hi Hc), (set_property_insert _ _ _ Hi).
  apply lookup_insert_eq.
Qed.


(** A like touches one cell at most. *)
Lemma cell_liked_other (db : Document) (t i t' i' : string) :
  (t', i') <> (t, i) -> cell (liked db t i) t' i' = cell db t' i'.
Proof.
  intros Hne. unfold liked. unfold cell at 1. cbn [likes set_likes].
  destruct (decide (t +:+ "s" = t' +:+ "s")) as [Hk | Hk].
  - apply append_inj_l in Hk as <-.
    rewrite likes_get_set. cbn [mbind option_bind].
    rewrite set_property_other by congruence. apply cell_lookup.
  - now rewrite likes_get_set_ne.
Qed.

Lemma counter_liked_other (db : Document) (t i t' i' : string) :
  (t', i') <> (t, i) -> counter (liked db t i) t' i' = counter db t' i'.
Proof. intros Hne. unfold counter. now rewrite cell_liked_other. Qed.



(** ** Handlers on a loaded document *)

Section Loaded.

(** The handler starts in [w]; [readDB] returns [db] and leaves [w']
    ([w] itself, unless the file was absent and has been seeded). *)
Variables (w w' : World) (db : Document).
Hypothesis loaded : readDB w = (Ok db, w').

Lemma get_news_run (q page_arg limit_arg source : option string) :
  let by_source :=
    if truthy source then from_source (or_empty source) else fun _ => true in
  let by_query :=
    if truthy q then news_matches (toLowerCase (or_empty q)) else fun _ => true in
  get_news q page_arg limit_arg source w
  = (Ok (json_cached "public, max-age=30"
           (NewsPage
              (paginate (List.filter by_query (List.filter by_source (news db)))
                 page_arg limit_arg))), w').
Proof.
  intros by_source by_query. unfold get_news.
  rewrite (bind_Ok _ _ _ _ _ loaded). unfold mret, M_ret.
  subst by_source by_query. do 5 f_equal.
  destruct (truthy source), (truthy q); rewrite ?filter_all; reflexivity.
Qed.

Lemma get_article_run (id : string) :
  get_article id w
  = (Ok match List.find (fun n => String.eqb (Article.id n) id) (news db) with
        | None => json_error 404 "Not found"
        | Some item =>
            json_cached "public, max-age=30"
              (ArticleBody item
                 (or_zero (get_property (Likes.articles (likes db)) id)))
        end, w').
Proof.
  unfold get_article. rewrite (bind_Ok _ _ _ _ _ loaded).
  destruct (List.find _ (news db)) as [item|] eqn:Hf; [|reflexivity].
  apply find_split in Hf as (_ & _ & _ & Hid & _).
  apply String.eqb_eq in Hid. rewrite Hid. reflexivity.
Qed.

Lemma get_search_run (s : string) (page_arg limit_arg : option string) :
  s <> "" ->
  get_search (Some s) page_arg limit_arg w
  = (Ok (json (SearchPage
           (paginate
              (List.map (fun x => mkHit "news" (NewsItem x))
                 (List.filter (news_matches (toLowerCase s)) (news db))
               ++ List.map (fun x => mkHit "image" (ImageItem x))
                    (List.filter (image_matches (toLowerCase s)) (images db)))
              page_arg limit_arg))), w').
Proof.
  intros Hs. unfold get_search. rewrite (truthy_Some s Hs). simpl.
  now rewrite (bind_Ok _ _ _ _ _ loaded).
Qed.

(** An accepted like answers what [table[id]] reads after the assignment
    and leaves the document [liked db t i] on disk. *)
Lemma post_like_run (t i : string) :
  t <> "" -> i <> "" ->
  post_like (Some t) (Some i) w
  = (Ok (json (LikeBody i t
                 (get_property
                    (default ∅ (Likes.get (likes (liked db t i)) (t +:+ "s"))) i))),
     mkWorld (Some (liked db t i)) (clock w') (ticks w') (entropy w') (draws w')).
Proof.
  intros Ht Hi. unfold post_like, liked.
  rewrite !truthy_Some by assumption. simpl.
  rewrite (bind_Ok _ _ _ _ _ loaded).
  set (key := t +:+ "s").
  destruct (Likes.get (likes db) key) as [tb|] eqn:Hk.
  - cbn [default id]. rewrite Hk. cbn [default id likes set_likes].
    rewrite likes_get_set. reflexivity.
  - cbn [default id]. rewrite !likes_get_set. cbn [default id likes set_likes].
    rewrite likes_set_set. reflexivity.
Qed.

(** For an id that is not inherited and a counter at [n], a like answers
    [n + 1]. *)
Lemma post_like_counts (t i : string) (n : Z) :
  t <> "" -> i <> "" -> inherited i = None -> counter db t i = Some n ->
  post_like (Some t) (Some i) w
  = (Ok (json (LikeBody i t (NumberValue (n + 1)))),
     mkWorld (Some (liked db t i)) (clock w') (ticks w') (entropy w') (draws w')).
Proof.
  intros Ht Hi Hin Hc. rewrite (post_like_run t i Ht Hi). do 4 f_equal.
  apply (get_property_own _ _ (Num (n + 1))).
  rewrite cell_lookup. now apply cell_liked.
Qed.

Lemma post_feedback_run (m : string) (context : option string) :
  m <> "" ->
  let entry :=
    Feedback.mk (entropy w' (draws w')) m (or_null context)
      (clock w' (ticks w')) in
  post_feedback (Some m) context w
  = (Ok (json StatusOk),
     mkWorld (Some (set_feedback db (default [] (feedback db) ++ [entry])))
       (clock w') (S (ticks w')) (entropy w') (S (draws w'))).
Proof.
  intros Hm entry. unfold post_feedback.
  rewrite (truthy_Some m Hm). simpl.
  now rewrite (bind_Ok _ _ _ _ _ loaded).
Qed.

Lemma post_admin_news_run (t u : string) (summary image sourceId : option string) :
  t <> "" -> u <> "" ->
  let item :=
    Article.mk ("n" +:+ entropy w' (draws w')) (Some t) (Some (or_empty summary))
      u (or_empty image) (clock w' (ticks w')) (or_null sourceId) in
  post_admin_news (Some t) summary (Some u) image sourceId w
  = (Ok (json (CreatedBody item)),
     mkWorld (Some (set_news db (item :: news db)))
       (clock w') (S (ticks w')) (entropy w') (S (draws w'))).
Proof.
  intros Ht Hu item. unfold post_admin_news.
  rewrite !truthy_Some by assumption. simpl.
  now rewrite (bind_Ok _ _ _ _ _ loaded).
Qed.

End Loaded.
(** ** Validation *)

Lemma post_like_rejects (w : World) (type id : option string) :
  blank type \/ blank id ->
  post_like type id w = (Ok (json_error 400 "type and id required"), w).
Proof.
  intros H. unfold post_like.
  destruct H as [H | H]; apply truthy_blank in H; rewrite H; simpl;
    [reflexivity | now rewrite orb_true_r].
Qed.

Lemma post_feedback_rejects (w : World) (message context : option string) :
  blank message ->
  post_feedback message context w = (Ok (json_error 400 "message required"), w).
Proof. intros H. unfold post_feedback. now rewrite (truthy_blank _ H). Qed.

Lemma post_admin_news_rejects (w : World)
    (title summary url image sourceId : option string) :
  blank title \/ blank url ->
  post_admin_news title summary url image sourceId w
  = (Ok (json_error 400 "title and url required"), w).
Proof.
  intros H. unfold post_admin_news.
  destruct H as [H | H]; apply truthy_blank in H; rewrite H; simpl;
    [reflexivity | now rewrite orb_true_r].
Qed.

(** C6.  A write request with a blank required field (missing, or the
    empty string) is answered 400 with an error message before the store
    is touched: the world after the request, and so the persisted
    document, is the world before it. *)
Theorem rejected_writes_do_not_mutate (w : World) :
  (forall type id : option string,
      blank type \/ blank id ->
      post_like type id w = (Ok (json_error 400 "type and id required"), w))
  /\ (forall message context : option string,
        blank message ->
        post_feedback message context w
        = (Ok (json_error 400 "message required"), w))
  /\ (forall title summary url image sourceId : option string,
        blank title \/ blank url ->
        post_admin_news title summary url image sourceId w
        = (Ok (json_error 400 "title and url required"), w)).
Proof.
  split; [|split].
  - intros type id. apply post_like_rejects.
  - intros message context. apply post_feedback_rejects.
  - intros title summary url image sourceId. apply post_admin_news_rejects.
Qed.

(** The requests of the claim, with the field left out of the body. *)
Example missing_fields_rejected (w : World) :
  post_like None (Some "n1") w = (Ok (json_error 400 "type and id required"), w)
  /\ post_like (Some "article") None w
     = (Ok (json_error 400 "type and id required"), w)
  /\ post_feedback None None w = (Ok (json_error 400 "message required"), w)
  /\ post_admin_news None None (Some "http://y") None None w
     = (Ok (json_error 400 "title and url required"), w)
  /\ post_admin_news (Some "X") None None None None w
     = (Ok (json_error 400 "title and url required"), w).
Proof. repeat split. Qed.

(** ** Likes *)

(** On the seed document the two likes of article [n1] take its counter
    from 12 to 13 and 14. *)
Example like_twice_on_seed :
  exists w1 w2,
    post_like (Some "article") (Some "n1") fresh_world
    = (Ok (json (LikeBody "n1" "article" (NumberValue 13))), w1)
    /\ post_like (Some "article") (Some "n1") w1
       = (Ok (json (LikeBody "n1" "article" (NumberValue 14))), w2)
    /\ (fun db => counter db "article" "n1") <$> disk w2 = Some (Some 14).
Proof.
  eexists _, _. split; [|split].
  - apply (post_like_counts _ _ _ (readDB_absent fresh_world eq_refl)
             "article" "n1" 12); (discriminate || reflexivity).
  - erewrite post_like_run;
      [| apply readDB_present; reflexivity | discriminate | discriminate].
    reflexivity.
  - reflexivity.
Qed.

(** C5 does not hold of the code for an id that is the name of a property
    of [Object.prototype].  On the seed document, which records no counter
    for [constructor], a like of the article [constructor] is answered not
    with the count 1 but with the text of the inherited function followed
    by [1], and that string is stored; a second like appends another [1].
    No counter is incremented: after the two likes the cell holds a
    string. *)
Theorem like_of_inherited_name_is_text :
  exists db0 w0 w1 db1 w2 db2,
    readDB fresh_world = (Ok db0, w0)
    /\ counter db0 "article" "constructor" = Some 0
    /\ post_like (Some "article") (Some "constructor") fresh_world
       = (Ok (json (LikeBody "constructor" "article"
                      (StringValue "function Object() { [native code] }1"))), w1)
    /\ disk w1 = Some db1
    /\ cell db1 "article" "constructor"
       = Some (Text "function Object() { [native code] }1")
    /\ post_like (Some "article") (Some "constructor") w1
       = (Ok (json (LikeBody "constructor" "article"
                      (StringValue "function Object() { [native code] }11"))), w2)
    /\ disk w2 = Some db2
    /\ cell db2 "article" "constructor"
       = Some (Text "function Object() { [native code] }11")
    /\ counter db2 "article" "constructor" = None.
Proof.
  eexists _, _, _, _, _, _.
  split; [exact (readDB_absent fresh_world eq_refl) |].
  split; [reflexivity |].
  split.
  { exact (post_like_run _ _ _ (readDB_absent fresh_world eq_refl)
             "article" "constructor" ltac:(discriminate) ltac:(discriminate)). }
  split; [reflexivity |].
  split; [vm_compute; reflexivity |].
  split.
  { erewrite post_like_run;
      [| apply readDB_present; reflexivity | discriminate | discriminate].
    reflexivity. }
  split; [reflexivity |].
  split; vm_compute; reflexivity.
Qed.

(** The same for [__proto__]: the like is answered with
    [Object.prototype] (written [{}]) and nothing is stored. *)
Example like_of_proto_stores_nothing :
  exists w1,
    post_like (Some "article") (Some "__proto__") fresh_world
    = (Ok (json (LikeBody "__proto__" "article" ObjectPrototype)), w1)
    /\ (fun db => cell db "article" "__proto__") <$> disk w1 = Some None
    /\ (fun db => likes db) <$> disk w1
       = Some (Likes.mk {[ "n1" := Num 12; "n2" := Num 5 ]} {[ "img1" := Num 3 ]} ∅).
Proof.
  eexists. split.
  - exact (post_like_run _ _ _ (readDB_absent fresh_world eq_refl)
             "article" "__proto__" ltac:(discriminate) ltac:(discriminate)).
  - split; reflexivity.
Qed.

(** C10 does not hold of the code for such an id either.  On the seed
    document a like of the video [toString] is accepted and creates
    [likes.videos], but the cell of [toString] is not set to 1: it holds
    the text of the inherited function followed by [1], which is also the
    count answered.  (The defect is that of C5: [table[id] || 0] reads an
    inherited property.) *)
Theorem like_of_video_toString_is_text :
  exists w1 db1,
    post_like (Some "video") (Some "toString") fresh_world
    = (Ok (json (LikeBody "toString" "video"
                   (StringValue "function toString() { [native code] }1"))), w1)
    /\ disk w1 = Some db1
    /\ Likes.others (likes db1) !! "videos"
       = Some {[ "toString" := Text "function toString() { [native code] }1" ]}
    /\ counter db1 "video" "toString" = None.
Proof.
  eexists _, _. split.
  { exact (post_like_run _ _ _ (readDB_absent fresh_world eq_refl)
             "video" "toString" ltac:(discriminate) ltac:(discriminate)). }
  split; [reflexivity |].
  split; vm_compute; reflexivity.
Qed.

(** A first like of a video creates [likes.videos] with the counter at 1. *)
Example like_video_on_seed :
  exists w',
    post_like (Some "video") (Some "v1") fresh_world
    = (Ok (json (LikeBody "v1" "video" (NumberValue 1))), w')
    /\ (fun db => Likes.others (likes db) !! "videos") <$> disk w'
       = Some (Some {[ "v1" := Num 1 ]}).
Proof.
  eexists. split.
  - apply (post_like_counts _ _ _ (readDB_absent fresh_world eq_refl)
             "video" "v1" 0); (discriminate || reflexivity).
  - vm_compute. reflexivity.
Qed.

(** ** A single article *)


(** The example of the specification: an article with one recorded like,
    and an id that no article has. *)
Example article_with_one_like :
  let a := Article.mk "n1" (Some "T") (Some "S") "u" "i" "2024" None in
  let db :=
    mkDocument [] [a] [] [] [] (Likes.mk {[ "n1" := Num 1 ]} ∅ ∅) None "2024" in
  let w := mkWorld (Some db) (fun _ => "") 0 (fun _ => "") 0 in
  get_article "n1" w
  = (Ok (json_cached "public, max-age=30" (ArticleBody a (NumberValue 1))), w)
  /\ get_article "doesnotexist" w = (Ok (json_error 404 "Not found"), w).
Proof. split; reflexivity. Qed.

(** ** The news list *)

(** C7.  [GET /news] loads the document and answers 200 with the page of
    the articles that remain after two filters applied in this order: by
    source, which keeps the articles whose [sourceId] is exactly the
    [source] parameter when that parameter is given (not blank), and by
    query, which keeps the articles whose title or summary contains [q]
    as a case-insensitive substring when [q] is given, a missing field
    containing nothing.  When no article passes, the page is empty; no
    request makes the handler throw. *)
Theorem news_filters_then_paginates (w : World)
    (q page_arg limit_arg source : option string) :
  exists db w' by_source by_query pag,
    readDB w = (Ok db, w')
    /\ get_news q page_arg limit_arg source w
       = (Ok (json_cached "public, max-age=30" (NewsPage pag)), w')
    /\ pag = paginate (List.filter by_query (List.filter by_source (news db)))
               page_arg limit_arg
    /\ (forall x,
          by_source x = true
          <-> forall s, source = Some s -> s <> "" -> Article.sourceId x = Some s)
    /\ (forall x,
          by_query x = true
          <-> forall s, q = Some s -> s <> "" ->
                field_contains (Article.title x) s
                \/ field_contains (Article.summary x) s)
    /\ ((forall x, x ∈ news db -> by_source x && by_query x = false) ->
        total pag = 0 /\ data pag = []).
Proof.
  destruct (readDB_total w) as (db & w' & H & _).
  set (by_source :=
         if truthy source then from_source (or_empty source) else fun _ => true).
  set (by_query :=
         if truthy q then news_matches (toLowerCase (or_empty q)) else fun _ => true).
  exists db, w', by_source, by_query,
    (paginate (List.filter by_query (List.filter by_source (news db)))
       page_arg limit_arg).
  split; [exact H |].
  split; [exact (get_news_run w w' db H q page_arg limit_arg source) |].
  split; [reflexivity |].
  split; [|split].
  - intros x. subst by_source. destruct (truthy source) eqn:Hs.
    + apply truthy_true in Hs as (s & -> & Hs). simpl. unfold from_source.
      rewrite bool_decide_eq_true. split.
      * now intros Hx s' [= <-] _.
      * intros Hx. now apply Hx.
    + apply truthy_false in Hs. split; [|reflexivity].
      intros _ s -> Hne. destruct Hs as [Hs | Hs]; congruence.
  - intros x. subst by_query. destruct (truthy q) eqn:Hq.
    + apply truthy_true in Hq as (s & -> & Hq). simpl.
      rewrite (news_matches_spec s x Hq). split.
      * now intros Hx s' [= <-] _.
      * intros Hx. now apply Hx.
    + apply truthy_false in Hq. split; [|reflexivity].
      intros _ s -> Hne. destruct Hq as [Hq | Hq]; congruence.
  - intros Hno. rewrite filter_filter, (filter_nothing _ _ Hno).
    split; apply paginate_nil.
Qed.

(** ** Unified search *)

Lemma tagged_type {A : Type} (tag : string) (wrap : A -> Item) (l : list A) (h : Hit) :
  h ∈ List.map (fun x => mkHit tag (wrap x)) l -> type h = tag.
Proof.
  intros Hin. apply list_elem_of_In, in_map_iff in Hin as (x & <- & _).
  reflexivity.
Qed.

(** In a list of news hits followed by image hits, every news hit stands
    before every image hit. *)
Lemma news_before_images (hs_news hs_images : list Hit) :
  (forall h, h ∈ hs_news -> type h = "news") ->
  (forall h, h ∈ hs_images -> type h = "image") ->
  forall (i j : nat) (h h' : Hit),
    (hs_news ++ hs_images) !! i = Some h -> type h = "news" ->
    (hs_news ++ hs_images) !! j = Some h' -> type h' = "image" ->
    (i < j)%nat.
Proof.
  intros Hn Hi i j h h' Hh Ht Hh' Ht'.
  destruct (decide (i < length hs_news)%nat) as [Li | Li];
    destruct (decide (j < length hs_news)%nat) as [Lj | Lj]; try lia.
  - rewrite lookup_app_l in Hh' by assumption.
    apply list_elem_of_lookup_2, Hn in Hh'. congruence.
  - rewrite lookup_app_r in Hh by lia.
    apply list_elem_of_lookup_2, Hi in Hh. congruence.
  - rewrite lookup_app_r in Hh by lia.
    apply list_elem_of_lookup_2, Hi in Hh. congruence.
Qed.

(** C4.  [GET /search] with a blank [q] (missing, or the empty string) is
    answered 400 with an error message, the store untouched.  With [q]
    present (not blank) it answers the page of the combined list: the
    articles whose
    title or summary contains [q] case-insensitively, in stored order and
    each tagged [news], followed by the images whose title contains [q]
    case-insensitively, in stored order and each tagged [image]; every
    news hit of the combined list stands before every image hit. *)
Theorem search_news_then_images (w : World) (q page_arg limit_arg : option string) :
  (blank q ->
   get_search q page_arg limit_arg w
   = (Ok (json_error 400 "q parameter required"), w))
  /\ (forall s, q = Some s -> s <> "" ->
      exists db w' keep_news keep_image combined,
        readDB w = (Ok db, w')
        /\ get_search q page_arg limit_arg w
           = (Ok (json (SearchPage (paginate combined page_arg limit_arg))), w')
        /\ combined
           = List.map (fun x => mkHit "news" (NewsItem x))
               (List.filter keep_news (news db))
             ++ List.map (fun x => mkHit "image" (ImageItem x))
                  (List.filter keep_image (images db))
        /\ (forall x,
              keep_news x = true
              <-> field_contains (Article.title x) s
                  \/ field_contains (Article.summary x) s)
        /\ (forall x, keep_image x = true <-> field_contains (Image.title x) s)
        /\ (forall (i j : nat) (h h' : Hit),
              combined !! i = Some h -> type h = "news" ->
              combined !! j = Some h' -> type h' = "image" ->
              (i < j)%nat)).
Proof.
  split.
  - intros Hq. unfold get_search. now rewrite (truthy_blank _ Hq).
  - intros s -> Hs.
    destruct (readDB_total w) as (db & w' & H & _).
    exists db, w', (news_matches (toLowerCase s)), (image_matches (toLowerCase s)).
    eexists. split; [exact H |].
    split; [exact (get_search_run w w' db H s page_arg limit_arg Hs) |].
    split; [reflexivity |].
    split; [intros x; now apply news_matches_spec |].
    split; [intros x; now apply image_matches_spec |].
    apply news_before_images; intros h; apply tagged_type.
Qed.

(** The example of the specification on the seed document: [tech] finds
    the second article, by its summary, and no image. *)
Example search_tech_on_seed :
  exists w' a,
    get_search (Some "tech") None None fresh_world
    = (Ok (json (SearchPage (mkEnvelope 1 10 1 1 [mkHit "news" (NewsItem a)]))), w')
    /\ Article.id a = "n2".
Proof. eexists _, _. split; reflexivity. Qed.

(** ** Creating an article *)

(** [GET /news] without a query, a source or a page number answers the
    first page, which starts with the first stored article whatever the
    limit. *)
Lemma get_news_first_page (w : World) (db : Document) (limit_arg : option string)
    (first : Article.t) (rest : list Article.t) :
  disk w = Some db -> news db = first :: rest ->
  exists pag,
    get_news None None limit_arg None w
    = (Ok (json_cached "public, max-age=30" (NewsPage pag)), w)
    /\ page pag = 1
    /\ data pag !! 0%nat = Some first
    /\ total pag = Z.of_nat (length rest) + 1.
Proof.
  intros H Hn. eexists. split.
  - unfold get_news. rewrite (bind_Ok _ _ _ _ _ (readDB_present w db H)).
    simpl. rewrite paginate_fields, Hn. reflexivity.
  - cbn [page data total].
    change (clamped_page (parseInt_or None 1)) with (Finite 1).
    split; [reflexivity |]. split; [|simpl; lia].
    pose proof (clamped_limit_bounds (parseInt_or limit_arg 10)) as Hl.
    change ((1 - 1) * clamped_limit (parseInt_or limit_arg 10)) with 0.
    destruct (Z.to_nat (clamped_limit (parseInt_or limit_arg 10))) as [|k] eqn:Hk;
      [lia | reflexivity].
Qed.

(** C9, as the claim states it, fails on the freshness of the id: the
    handler does not compare the generated id with the stored ones.  When
    the generator draws the same string twice, the second article gets
    the id of the first. *)
Lemma admin_news_id_can_repeat :
  exists a1 w1 a2 w2,
    post_admin_news (Some "X") None (Some "http://y") None None fresh_world
    = (Ok (json (CreatedBody a1)), w1)
    /\ (fun db => map Article.id (news db)) <$> disk w1
       = Some ["nV1StGX"; "n1"; "n2"]
    /\ post_admin_news (Some "Z") None (Some "http://z") None None w1
       = (Ok (json (CreatedBody a2)), w2)
    /\ Article.id a2 = "nV1StGX"
    /\ (fun db => map Article.id (news db)) <$> disk w2
       = Some ["nV1StGX"; "nV1StGX"; "n1"; "n2"].
Proof.
  eexists _, _, _, _. split; [|split; [|split; [|split]]].
  - eapply post_admin_news_run; [| discriminate | discriminate].
    apply readDB_absent. reflexivity.
  - reflexivity.
  - eapply post_admin_news_run; [| discriminate | discriminate].
    apply readDB_present. reflexivity.
  - reflexivity.
  - reflexivity.
Qed.

(** C9, amended.  [POST /admin/news] with [title] and [url] present
    answers the created article and persists the document with that
    article prepended to the news, everything else as loaded.  The
    article carries the id [n] followed by the string the generator
    returns, the title and url of the request, the clock reading as
    [publishedAt], and, for omitted optional fields, the summary [''],
    the image [''] and the source [null].  A following [GET /news] has
    it first on its first page.  The id is not compared with the stored
    ones: identifiers stay unique exactly when the generated id is not
    already in use. *)
Theorem admin_news_prepends (w : World) (t u : string)
    (summary image sourceId : option string) :
  t <> "" -> u <> "" ->
  exists db w0 item w1,
    readDB w = (Ok db, w0)
    /\ post_admin_news (Some t) summary (Some u) image sourceId w
       = (Ok (json (CreatedBody item)), w1)
    /\ Article.id item = "n" +:+ entropy w (draws w)
    /\ Article.title item = Some t /\ Article.url item = u
    /\ Article.publishedAt item = clock w (ticks w0)
    /\ Article.summary item = Some (default "" summary)
    /\ Article.image item = default "" image
    /\ Article.sourceId item = (if truthy sourceId then sourceId else None)
    /\ disk w1 = Some (set_news db (item :: news db))
    /\ (forall limit_arg, exists pag,
          get_news None None limit_arg None w1
          = (Ok (json_cached "public, max-age=30" (NewsPage pag)), w1)
          /\ page pag = 1
          /\ data pag !! 0%nat = Some item
          /\ total pag = Z.of_nat (length (news db)) + 1)
    /\ (NoDup (map Article.id (news db)) ->
        NoDup (map Article.id (item :: news db))
        <-> forall a, a ∈ news db -> Article.id a <> Article.id item).
Proof.
  intros Ht Hu.
  destruct (readDB_total w) as (db & w0 & H & _ & Hc & He & Hd & _).
  eexists db, w0, _, _.
  split; [exact H |].
  split; [exact (post_admin_news_run w w0 db H t u summary image sourceId Ht Hu) |].
  simpl. rewrite He, Hd, Hc.
  do 7 (split; [reflexivity |]).
  split; [reflexivity |].
  split.
  { intros limit_arg. now eapply get_news_first_page. }
  intros Hnd. rewrite NoDup_cons. split.
  - intros [Hnew _] a Ha Heq. apply Hnew. rewrite <- Heq.
    now apply list_elem_of_In, in_map, list_elem_of_In.
  - intros Hnew. split; [|assumption].
    intros Hin. apply list_elem_of_In, in_map_iff in Hin as (a & Heq & Ha).
    apply (Hnew a); [now apply list_elem_of_In | assumption].
Qed.

Lemma admin_news_prepends_witness :
  exists db w0 item w1,
    readDB fresh_world = (Ok db, w0)
    /\ post_admin_news (Some "X") None (Some "http://y") None None fresh_world
       = (Ok (json (CreatedBody item)), w1)
    /\ Article.id item = "n" +:+ entropy fresh_world (draws fresh_world)
    /\ Article.title item = Some "X" /\ Article.url item = "http://y"
    /\ Article.publishedAt item = clock fresh_world (ticks w0)
    /\ Article.summary item = Some (default "" None)
    /\ Article.image item = default "" None
    /\ Article.sourceId item = (if truthy None then None else None)
    /\ disk w1 = Some (set_news db (item :: news db))
    /\ (forall limit_arg, exists pag,
          get_news None None limit_arg None w1
          = (Ok (json_cached "public, max-age=30" (NewsPage pag)), w1)
          /\ page pag = 1
          /\ data pag !! 0%nat = Some item
          /\ total pag = Z.of_nat (length (news db)) + 1)
    /\ (NoDup (map Article.id (news db)) ->
        NoDup (map Article.id (item :: news db))
        <-> forall a, a ∈ news db -> Article.id a <> Article.id item).
Proof.
  apply (admin_news_prepends fresh_world "X" "http://y" None None None);
    discriminate.
Defined.

(** ** Feedback *)

(** An accepted feedback is appended after the stored entries, with the
    generated id and the clock reading, and persisted. *)
Lemma feedback_appends (w : World) (m : string) (context : option string) :
  m <> "" ->
  exists db w0 entry w1,
    readDB w = (Ok db, w0)
    /\ post_feedback (Some m) context w = (Ok (json StatusOk), w1)
    /\ feedback <$> disk w1 = Some (Some (default [] (feedback db) ++ [entry]))
    /\ Feedback.id entry = entropy w (draws w)
    /\ Feedback.message entry = m
    /\ Feedback.createdAt entry = clock w (ticks w0).
Proof.
  intros Hm.
  destruct (readDB_total w) as (db & w0 & H & _ & Hc & He & Hd & _).
  eexists db, w0, _, _. split; [exact H |].
  split; [exact (post_feedback_run w w0 db H m context Hm) |].
  simpl. now rewrite He, Hd, Hc.
Qed.

(** ** No handler throws *)

(** Every request is answered: the only call that can throw, reading an
    absent file, is made by [readDB] after it has written the file. *)
Lemma handlers_answer (w : World) :
  (exists r w', get_health w = (Ok r, w'))
  /\ (exists r w', get_highlights w = (Ok r, w'))
  /\ (forall q p l s, exists r w', get_news q p l s w = (Ok r, w'))
  /\ (forall id, exists r w', get_article id w = (Ok r, w'))
  /\ (forall q p l, exists r w', get_images q p l w = (Ok r, w'))
  /\ (exists r w', get_sources w = (Ok r, w'))
  /\ (exists r w', get_trending w = (Ok r, w'))
  /\ (forall q p l, exists r w', get_search q p l w = (Ok r, w'))
  /\ (forall t i, exists r w', post_like t i w = (Ok r, w'))
  /\ (forall m c, exists r w', post_feedback m c w = (Ok r, w'))
  /\ (forall t s u i src, exists r w', post_admin_news t s u i src w = (Ok r, w'))
  /\ (exists r w', not_found w = (Ok r, w')).
Proof.
  destruct (readDB_total w) as (db & w0 & H & _).
  assert (Hrun : forall (f : Document -> Response),
             exists r w', (db ← readDB; mret (f db)) w = (Ok r, w')).
  { intros f. eexists _, _. rewrite (bind_Ok _ _ _ _ _ H). reflexivity. }
  split; [eexists _, _; reflexivity |].
  split; [apply Hrun |].
  split; [intros; eexists _, _; apply (get_news_run w w0 db H) |].
  split; [intros; eexists _, _; apply (get_article_run w w0 db H) |].
  split; [intros; apply Hrun |].
  split; [apply Hrun |].
  split; [apply Hrun |].
  split.
  { intros q p l. destruct (truthy q) eqn:Hq.
    - apply truthy_true in Hq as (s & -> & Hs).
      eexists _, _. now apply (get_search_run w w0 db H).
    - eexists _, _. unfold get_search. rewrite Hq. reflexivity. }
  split.
  { intros t i. destruct (truthy t && truthy i) eqn:Hv.
    - apply andb_true_iff in Hv as [Ht Hi].
      apply truthy_true in Ht as (t' & -> & Ht).
      apply truthy_true in Hi as (i' & -> & Hi).
      eexists _, _. now apply (post_like_run w w0 db H).
    - eexists _, _. apply post_like_rejects.
      apply andb_false_iff in Hv as [Hv | Hv]; apply truthy_false in Hv; auto. }
  split.
  { intros m c. destruct (truthy m) eqn:Hm.
    - apply truthy_true in Hm as (m' & -> & Hm).
      eexists _, _. now apply (post_feedback_run w w0 db H).
    - eexists _, _. apply post_feedback_rejects. now apply truthy_false. }
  split.
  { intros t s u i src. destruct (truthy t && truthy u) eqn:Hv.
    - apply andb_true_iff in Hv as [Ht Hu].
      apply truthy_true in Ht as (t' & -> & Ht).
      apply truthy_true in Hu as (u' & -> & Hu).
      eexists _, _. now apply (post_admin_news_run w w0 db H).
    - eexists _, _. apply post_admin_news_rejects.
      apply andb_false_iff in Hv as [Hv | Hv]; apply truthy_false in Hv; auto. }
  eexists _, _. reflexivity.
Qed.

(** * Further properties of the code *)

(** ** Pages *)

Lemma sublist_filter {A : Type} (f : A -> bool) (l : list A) :
  sublist (List.filter f l) l.
Proof.
  induction l as [|x l IH]; simpl; [constructor |].
  destruct (f x); now constructor.
Qed.

Lemma sublist_page {A : Type} (items : list A) (n k : nat) :
  sublist (take n (drop k items)) items.
Proof.
  transitivity (drop k items); [apply sublist_take | apply sublist_drop].
Qed.

(** X5.  Whatever the arguments, a page holds at most [limit] items and
    [limit] is at most 100; the items are a sublist of the input, in input
    order; the page is non-empty exactly when its number is at most
    [pages]; and [pages] is 0 exactly for the empty input. *)
Theorem paginate_bounds {A : Type} (items : list A)
    (page_arg limit_arg : option string) :
  let r := paginate items page_arg limit_arg in
  number_le (Z.of_nat (length (data r))) (limit r)
  /\ number_le (limit r) 100
  /\ sublist (data r) items
  /\ (data r <> [] <-> number_le (page r) (pages r))
  /\ (pages r = 0 <-> items = []).
Proof.
  intros r. subst r. rewrite paginate_fields.
  cbn [page limit total pages data].
  set (l := clamped_limit (parseInt_or limit_arg 10)).
  set (n := Z.of_nat (length items)).
  assert (Hl : 1 <= l <= 100) by apply clamped_limit_bounds.
  pose proof (ceil_div_bounds n l ltac:(lia)) as Hc.
  assert (Hpages : Finite (ceil_div n l) = 0 <-> items = []).
  { split.
    - intros [= H0]. rewrite H0 in Hc. apply length_zero_iff_nil. lia.
    - intros ->. subst n. simpl. unfold ceil_div. change (- 0) with 0.
      now rewrite Zdiv_0_l. }
  destruct (clamped_page_cases (parseInt_or page_arg 1)) as [-> | (p & -> & Hp)].
  - cbn [number_le length Z.of_nat].
    split; [lia |]. split; [lia |]. split; [apply sublist_nil_l |].
    split; [|exact Hpages]. split; [intros H; now destruct H | intros []].
  - assert (Hs : 0 <= (p - 1) * l) by (apply Z.mul_nonneg_nonneg; lia).
    assert (Hlen : Z.of_nat (length (take (Z.to_nat l)
                                       (drop (Z.to_nat ((p - 1) * l)) items)))
                   = Z.max 0 (Z.min l (n - (p - 1) * l))).
    { rewrite length_take, length_drop. fold n. lia. }
    cbn [number_le].
    split; [lia |]. split; [lia |]. split; [apply sublist_page |].
    split; [|exact Hpages]. split.
    + intros Hne.
      destruct (Z_le_gt_dec p (ceil_div n l)) as [?|Hgt]; [assumption |].
      exfalso. apply Hne. apply length_zero_iff_nil.
      assert (n <= (p - 1) * l) by nia. lia.
    + intros Hle Hnil. rewrite Hnil in Hlen. simpl in Hlen.
      assert ((p - 1) * l < n) by nia. lia.
Qed.

(** X6.  With a limit [l] in [1, 100], the item at index [i] of the input
    is on page [i / l + 1], at offset [i mod l]: the pages cover the
    input, one after the other. *)
Theorem every_item_on_one_page {A : Type} (items : list A)
    (page_arg limit_arg : option string) (l : Z) (i : nat) (x : A) :
  parseInt_or limit_arg 10 = Finite l -> 1 <= l <= 100 ->
  parseInt_or page_arg 1 = Finite (Z.of_nat i / l + 1) ->
  items !! i = Some x ->
  data (paginate items page_arg limit_arg) !! Z.to_nat (Z.of_nat i mod l)
  = Some x.
Proof.
  intros Hl Hl1 Hp Hx. rewrite paginate_fields, Hp, Hl.
  cbn [data].
  pose proof (Z.div_pos (Z.of_nat i) l ltac:(lia) ltac:(lia)) as Hq.
  pose proof (Z.mod_pos_bound (Z.of_nat i) l ltac:(lia)) as Hm.
  pose proof (Z.div_mod (Z.of_nat i) l ltac:(lia)) as Hdm.
  assert (Hcl : clamped_limit (Finite l) = l).
  { simpl. repeat case_decide; lia. }
  assert (Hcp : clamped_page (Finite (Z.of_nat i / l + 1))
                = Finite (Z.of_nat i / l + 1)).
  { simpl. case_decide; [lia | reflexivity]. }
  rewrite Hcl, Hcp.
  rewrite lookup_take_lt by lia. rewrite lookup_drop.
  replace (Z.of_nat i / l + 1 - 1) with (Z.of_nat i / l) by lia.
  replace (Z.to_nat (Z.of_nat i / l * l) + Z.to_nat (Z.of_nat i mod l))%nat
    with i; [assumption |].
  assert (0 <= Z.of_nat i / l * l) by (apply Z.mul_nonneg_nonneg; lia).
  lia.
Qed.

Lemma every_item_on_one_page_witness :
  data (paginate ["a"; "b"; "c"; "d"; "e"] (Some "2") (Some "2"))
    !! Z.to_nat (Z.of_nat 3 mod 2)
  = Some "d".
Proof.
  apply (every_item_on_one_page ["a"; "b"; "c"; "d"; "e"] (Some "2") (Some "2") 2 3 "d");
    [reflexivity | lia | reflexivity | reflexivity].
Defined.

(** ** Reading handlers *)

Lemma get_search_blank (w : World) (q page_arg limit_arg : option string) :
  blank q ->
  get_search q page_arg limit_arg w
  = (Ok (json_error 400 "q parameter required"), w).
Proof. intros Hq. unfold get_search. now rewrite (truthy_blank _ Hq). Qed.

Section LoadedReads.

Variables (w w' : World) (db : Document).
Hypothesis loaded : readDB w = (Ok db, w').

Lemma get_highlights_run :
  get_highlights w
  = (Ok (json_cached "public, max-age=60" (HighlightItems (highlights db))), w').
Proof. unfold get_highlights. now rewrite (bind_Ok _ _ _ _ _ loaded). Qed.

Lemma get_sources_run :
  get_sources w = (Ok (json (SourceItems (sources db))), w').
Proof. unfold get_sources. now rewrite (bind_Ok _ _ _ _ _ loaded). Qed.

Lemma get_trending_run :
  get_trending w = (Ok (json (TrendingItems (trending db))), w').
Proof. unfold get_trending. now rewrite (bind_Ok _ _ _ _ _ loaded). Qed.

Lemma get_images_run (q page_arg limit_arg : option string) :
  let by_query :=
    if truthy q then image_matches (toLowerCase (or_empty q)) else fun _ => true in
  get_images q page_arg limit_arg w
  = (Ok (json_cached "public, max-age=60"
           (ImagesPage (paginate (List.filter by_query (images db))
                          page_arg limit_arg))), w').
Proof.
  intros by_query. unfold get_images.
  rewrite (bind_Ok _ _ _ _ _ loaded). unfold mret, M_ret.
  subst by_query. do 5 f_equal.
  destruct (truthy q); rewrite ?filter_all; reflexivity.
Qed.

End LoadedReads.

(** X2.  A reading handler changes the world only as [readDB] does: a file
    that is there is left as it is, an absent one is seeded, and nothing
    else is written.  The highlights, the sources and the trending topics
    are answered as stored, in stored order; a search with a blank [q]
    does not even load the file. *)
Theorem reads_only_load (w : World) :
  exists db w',
    readDB w = (Ok db, w')
    /\ (forall db0, disk w = Some db0 -> w' = w)
    /\ get_highlights w
       = (Ok (json_cached "public, max-age=60" (HighlightItems (highlights db))), w')
    /\ get_sources w = (Ok (json (SourceItems (sources db))), w')
    /\ get_trending w = (Ok (json (TrendingItems (trending db))), w')
    /\ (forall q p l s, exists r, get_news q p l s w = (Ok r, w'))
    /\ (forall id, exists r, get_article id w = (Ok r, w'))
    /\ (forall q p l, exists r, get_images q p l w = (Ok r, w'))
    /\ (forall q p l, exists r,
          get_search q p l w = (Ok r, if truthy q then w' else w)).
Proof.
  destruct (readDB_total w) as (db & w' & H & _ & _ & _ & _ & Hsame).
  exists db, w'. split; [exact H |].
  split; [intros db0 H0; now destruct (Hsame db0 H0) |].
  split; [exact (get_highlights_run w w' db H) |].
  split; [exact (get_sources_run w w' db H) |].
  split; [exact (get_trending_run w w' db H) |].
  split; [intros; eexists; apply (get_news_run w w' db H) |].
  split; [intros; eexists; apply (get_article_run w w' db H) |].
  split; [intros; eexists; apply (get_images_run w w' db H) |].
  intros q p l. destruct (truthy q) eqn:Hq.
  - apply truthy_true in Hq as (s & -> & Hs).
    eexists. now apply (get_search_run w w' db H).
  - eexists. apply get_search_blank. now apply truthy_false.
Qed.

(** X3.  [GET /images] answers 200, with a cache hint of 60 seconds, the
    page of the stored images whose title contains [q] as a
    case-insensitive substring when [q] is given (not blank), an image
    without a title containing nothing; with a blank [q] it pages all the
    images.  When no image passes, the page is empty. *)
Theorem images_filter_then_paginate (w : World)
    (q page_arg limit_arg : option string) :
  exists db w' by_query pag,
    readDB w = (Ok db, w')
    /\ get_images q page_arg limit_arg w
       = (Ok (json_cached "public, max-age=60" (ImagesPage pag)), w')
    /\ pag = paginate (List.filter by_query (images db)) page_arg limit_arg
    /\ (forall x,
          by_query x = true
          <-> forall s, q = Some s -> s <> "" -> field_contains (Image.title x) s)
    /\ (blank q -> total pag = Z.of_nat (length (images db)))
    /\ ((forall x, x ∈ images db -> by_query x = false) ->
        total pag = 0 /\ data pag = []).
Proof.
  destruct (readDB_total w) as (db & w' & H & _).
  set (by_query :=
         if truthy q then image_matches (toLowerCase (or_empty q)) else fun _ => true).
  exists db, w', by_query,
    (paginate (List.filter by_query (images db)) page_arg limit_arg).
  split; [exact H |].
  split; [exact (get_images_run w w' db H q page_arg limit_arg) |].
  split; [reflexivity |].
  split; [|split].
  - intros x. subst by_query. destruct (truthy q) eqn:Hq.
    + apply truthy_true in Hq as (s & -> & Hq). simpl.
      rewrite (image_matches_spec s x Hq). split.
      * now intros Hx s' [= <-] _.
      * intros Hx. now apply Hx.
    + apply truthy_false in Hq. split; [|reflexivity].
      intros _ s -> Hne. destruct Hq as [Hq | Hq]; congruence.
  - intros Hq. subst by_query. rewrite (truthy_blank _ Hq), filter_all.
    reflexivity.
  - intros Hno. rewrite (filter_nothing _ _ Hno). split; apply paginate_nil.
Qed.

(** X4.  For a query that is not blank, the total that [GET /search]
    reports is the total of [GET /news] for that query without a source
    plus the total of [GET /images] for that query, whatever the pages
    asked for. *)
Theorem search_total_is_sum (w : World) (s : string)
    (p l pn ln pi li : option string) :
  s <> "" ->
  exists w' found articles pictures,
    get_search (Some s) p l w = (Ok (json (SearchPage found)), w')
    /\ get_news (Some s) pn ln None w
       = (Ok (json_cached "public, max-age=30" (NewsPage articles)), w')
    /\ get_images (Some s) pi li w
       = (Ok (json_cached "public, max-age=60" (ImagesPage pictures)), w')
    /\ total found = total articles + total pictures.
Proof.
  intros Hs. destruct (readDB_total w) as (db & w' & H & _).
  eexists w', _, _, _.
  split; [exact (get_search_run w w' db H s p l Hs) |].
  split; [exact (get_news_run w w' db H (Some s) pn ln None) |].
  split; [exact (get_images_run w w' db H (Some s) pi li) |].
  rewrite (truthy_Some s Hs). cbn [truthy total paginate or_empty default].
  unfold id. rewrite filter_all, length_app, !length_map. lia.
Qed.

Lemma search_total_is_sum_witness :
  exists w' found articles pictures,
    get_search (Some "a") None None fresh_world = (Ok (json (SearchPage found)), w')
    /\ get_news (Some "a") None None None fresh_world
       = (Ok (json_cached "public, max-age=30" (NewsPage articles)), w')
    /\ get_images (Some "a") None None fresh_world
       = (Ok (json_cached "public, max-age=60" (ImagesPage pictures)), w')
    /\ total found = total articles + total pictures.
Proof.
  apply (search_total_is_sum fresh_world "a" None None None None None None).
  discriminate.
Defined.

(** X7.  The lists never hold anything that is not stored: the page of
    [GET /news] is a sublist of the stored news and the page of
    [GET /images] a sublist of the stored images, in stored order and of
    at most 100 items, and every hit of [GET /search] is a stored article
    tagged [news] or a stored image tagged [image]. *)
Theorem lists_answer_stored_items (w : World) (q p l s : option string) :
  exists db w' articles pictures,
    readDB w = (Ok db, w')
    /\ get_news q p l s w
       = (Ok (json_cached "public, max-age=30" (NewsPage articles)), w')
    /\ sublist (data articles) (news db)
    /\ (length (data articles) <= 100)%nat
    /\ total articles <= Z.of_nat (length (news db))
    /\ get_images q p l w
       = (Ok (json_cached "public, max-age=60" (ImagesPage pictures)), w')
    /\ sublist (data pictures) (images db)
    /\ (length (data pictures) <= 100)%nat
    /\ (forall r w'' found h,
          get_search q p l w = (Ok r, w'') -> body r = SearchPage found ->
          h ∈ data found ->
          (exists x, x ∈ news db /\ h = mkHit "news" (NewsItem x))
          \/ (exists x, x ∈ images db /\ h = mkHit "image" (ImageItem x))).
Proof.
  destruct (readDB_total w) as (db & w' & H & _).
  eexists db, w', _, _.
  split; [exact H |].
  split; [exact (get_news_run w w' db H q p l s) |].
  assert (Hpage : forall (A : Type) (xs : list A),
             sublist (data (paginate xs p l)) xs
             /\ (length (data (paginate xs p l)) <= 100)%nat).
  { intros A xs. rewrite paginate_fields. cbn [data].
    pose proof (clamped_limit_bounds (parseInt_or l 10)) as Hl.
    destruct (clamped_page (parseInt_or p 1));
      try (split; [apply sublist_nil_l | simpl; lia]).
    split; [apply sublist_page |]. rewrite length_take. lia. }
  split.
  { transitivity (List.filter
                    (if truthy q then news_matches (toLowerCase (or_empty q))
                     else fun _ => true)
                    (List.filter
                       (if truthy s then from_source (or_empty s) else fun _ => true)
                       (news db))).
    - apply Hpage.
    - transitivity (List.filter
                      (if truthy s then from_source (or_empty s) else fun _ => true)
                      (news db)); apply sublist_filter. }
  split; [apply Hpage |].
  split.
  { cbn [total paginate]. apply inj_le.
    etransitivity; apply sublist_length, sublist_filter. }
  split; [exact (get_images_run w w' db H q p l) |].
  split.
  { transitivity (List.filter
                    (if truthy q then image_matches (toLowerCase (or_empty q))
                     else fun _ => true) (images db)).
    - apply Hpage.
    - apply sublist_filter. }
  split; [apply Hpage |].
  intros r w'' found h Hrun Hbody Hin.
  destruct (truthy q) eqn:Hq.
  - apply truthy_true in Hq as (t & -> & Ht).
    rewrite (get_search_run w w' db H t p l Ht) in Hrun.
    injection Hrun as <- _. simpl in Hbody. injection Hbody as <-.
    destruct (Hpage _ (List.map (fun x => mkHit "news" (NewsItem x))
                         (List.filter (news_matches (toLowerCase t)) (news db))
                       ++ List.map (fun x => mkHit "image" (ImageItem x))
                            (List.filter (image_matches (toLowerCase t)) (images db))))
      as [Hsub _].
    apply (elem_of_sublist _ _ _ Hin) in Hsub. clear Hin. rename Hsub into Hin.
    apply elem_of_app in Hin as [Hin | Hin];
      apply list_elem_of_In, in_map_iff in Hin as (x & <- & Hx);
      apply filter_In in Hx as [Hx _]; apply list_elem_of_In in Hx; eauto.
  - apply truthy_false in Hq.
    rewrite (get_search_blank w _ p l Hq) in Hrun.
    injection Hrun as <- _. discriminate Hbody.
Qed.

(** ** Writes and the answers that follow *)

(** The lists are answered from the collections alone. *)
Lemma list_answers_agree (w1 w1' w2 w2' : World) (db1 db2 : Document) :
  readDB w1 = (Ok db1, w1') -> readDB w2 = (Ok db2, w2') ->
  same_lists db1 db2 ->
  fst (get_highlights w2) = fst (get_highlights w1)
  /\ fst (get_sources w2) = fst (get_sources w1)
  /\ fst (get_trending w2) = fst (get_trending w1)
  /\ (forall q p l s, fst (get_news q p l s w2) = fst (get_news q p l s w1))
  /\ (forall q p l, fst (get_images q p l w2) = fst (get_images q p l w1))
  /\ (forall q p l, fst (get_search q p l w2) = fst (get_search q p l w1)).
Proof.
  intros H1 H2 (Hh & Hn & Hi & Hs & Ht).
  rewrite (get_highlights_run _ _ _ H1), (get_highlights_run _ _ _ H2).
  rewrite (get_sources_run _ _ _ H1), (get_sources_run _ _ _ H2).
  rewrite (get_trending_run _ _ _ H1), (get_trending_run _ _ _ H2).
  simpl. rewrite Hh, Hs, Ht.
  do 3 (split; [reflexivity |]).
  split; [|split].
  - intros q p l s.
    rewrite (get_news_run _ _ _ H1), (get_news_run _ _ _ H2). simpl.
    now rewrite Hn.
  - intros q p l.
    rewrite (get_images_run _ _ _ H1), (get_images_run _ _ _ H2). simpl.
    now rewrite Hi.
  - intros q p l. destruct (truthy q) eqn:Hq.
    + apply truthy_true in Hq as (t & -> & Hq).
      rewrite (get_search_run _ _ _ H1 t p l Hq), (get_search_run _ _ _ H2 t p l Hq).
      simpl. now rewrite Hn, Hi.
    + apply truthy_false in Hq. now rewrite !get_search_blank.
Qed.

Lemma get_property_ext (t1 t2 : gmap string Cell) (id : string) :
  t1 !! id = t2 !! id -> get_property t1 id = get_property t2 id.
Proof. intros H. unfold get_property. now rewrite H. Qed.

(** An article is answered from the news and from its own counter. *)
Lemma article_answers_agree (w1 w1' w2 w2' : World) (db1 db2 : Document)
    (id : string) :
  readDB w1 = (Ok db1, w1') -> readDB w2 = (Ok db2, w2') ->
  news db2 = news db1 ->
  Likes.articles (likes db2) !! id = Likes.articles (likes db1) !! id ->
  fst (get_article id w2) = fst (get_article id w1).
Proof.
  intros H1 H2 Hn Hl.
  rewrite (get_article_run _ _ _ H1), (get_article_run _ _ _ H2). simpl.
  now rewrite Hn, (get_property_ext _ _ _ Hl).
Qed.

Lemma articles_liked (db : Document) (t i : string) :
  Likes.articles (likes (liked db t i))
  = if String.eqb t "article"
    then set_property (Likes.articles (likes db)) i
           (increment (get_property (Likes.articles (likes db)) i))
    else Likes.articles (likes db).
Proof.
  destruct (String.eqb_spec t "article") as [-> | Hne]; [reflexivity |].
  unfold liked, Likes.set. cbn [likes set_likes].
  destruct (String.eqb_spec (t +:+ "s") "articles") as [He | _].
  - exfalso. apply Hne. now apply (append_inj_l t "article" "s").
  - now destruct (String.eqb (t +:+ "s") "images").
Qed.

Lemma same_lists_liked (db : Document) (t i : string) :
  same_lists db (liked db t i).
Proof. repeat split. Qed.








(** X10.  A like changes no list: after an accepted [POST /like] the
    highlights, sources, trending topics, news, images and search answer
    what they answered before, and so does [GET /news/:id] for every
    article other than the liked one. *)
Theorem like_leaves_lists_unchanged (w : World) (t i : string) :
  t <> "" -> i <> "" ->
  exists r w1,
    post_like (Some t) (Some i) w = (Ok r, w1)
    /\ fst (get_highlights w1) = fst (get_highlights w)
    /\ fst (get_sources w1) = fst (get_sources w)
    /\ fst (get_trending w1) = fst (get_trending w)
    /\ (forall q p l s, fst (get_news q p l s w1) = fst (get_news q p l s w))
    /\ (forall q p l, fst (get_images q p l w1) = fst (get_images q p l w))
    /\ (forall q p l, fst (get_search q p l w1) = fst (get_search q p l w))
    /\ (forall id, (t, id) <> ("article", i) ->
          fst (get_article id w1) = fst (get_article id w)).
Proof.
  intros Ht Hi. destruct (readDB_total w) as (db & w0 & H & _).
  eexists _, _. split; [exact (post_like_run w w0 db H t i Ht Hi) |].
  set (w1 := mkWorld (Some (liked db t i)) (clock w0) (ticks w0) (entropy w0)
               (draws w0)).
  assert (H1 : readDB w1 = (Ok (liked db t i), w1)) by now apply readDB_present.
  destruct (list_answers_agree w _ w1 _ db _ H H1 (same_lists_liked db t i))
    as (Hh & Hs & Htr & Hn & Him & Hse).
  do 6 (split; [assumption |]).
  intros id Hne. apply (article_answers_agree w w0 w1 w1 db _ id H H1);
    [reflexivity |].
  rewrite articles_liked. destruct (String.eqb_spec t "article") as [-> | _];
    [|reflexivity].
  apply set_property_other. congruence.
Qed.

Lemma like_leaves_lists_unchanged_witness :
  exists r w1,
    post_like (Some "image") (Some "img1") fresh_world = (Ok r, w1)
    /\ fst (get_highlights w1) = fst (get_highlights fresh_world)
    /\ fst (get_sources w1) = fst (get_sources fresh_world)
    /\ fst (get_trending w1) = fst (get_trending fresh_world)
    /\ (forall q p l s,
          fst (get_news q p l s w1) = fst (get_news q p l s fresh_world))
    /\ (forall q p l,
          fst (get_images q p l w1) = fst (get_images q p l fresh_world))
    /\ (forall q p l,
          fst (get_search q p l w1) = fst (get_search q p l fresh_world))
    /\ (forall id, ("image", id) <> ("article", "img1") ->
          fst (get_article id w1) = fst (get_article id fresh_world)).
Proof.
  apply (like_leaves_lists_unchanged fresh_world "image" "img1"); discriminate.
Defined.

(** X1.  An accepted feedback is stored after the entries already there
    (the list is created by the first one), with the generated id, the
    message, the context or [null], and the clock reading; a second one
    comes after it.  Nothing else of the document changes, and every
    reading handler answers what it answered before. *)
Theorem feedback_is_appended (w : World) (m : string) (context : option string) :
  m <> "" ->
  exists db w0 entry w1 db1,
    readDB w = (Ok db, w0)
    /\ post_feedback (Some m) context w = (Ok (json StatusOk), w1)
    /\ disk w1 = Some db1
    /\ feedback db1 = Some (default [] (feedback db) ++ [entry])
    /\ entry = Feedback.mk (entropy w (draws w)) m
                 (if truthy context then context else None) (clock w (ticks w0))
    /\ same_lists db db1 /\ likes db1 = likes db /\ createdAt db1 = createdAt db
    /\ (forall id, fst (get_article id w1) = fst (get_article id w))
    /\ (forall q p l s, fst (get_news q p l s w1) = fst (get_news q p l s w))
    /\ (forall q p l, fst (get_images q p l w1) = fst (get_images q p l w))
    /\ (forall q p l, fst (get_search q p l w1) = fst (get_search q p l w))
    /\ (forall m2 c2, m2 <> "" ->
        exists entry2 w2 db2,
          post_feedback (Some m2) c2 w1 = (Ok (json StatusOk), w2)
          /\ disk w2 = Some db2
          /\ Feedback.message entry2 = m2
          /\ feedback db2 = Some (default [] (feedback db) ++ [entry; entry2])).
Proof.
  intros Hm.
  destruct (readDB_total w) as (db & w0 & H & _ & Hc & He & Hd & _).
  eexists db, w0, _, _, _. split; [exact H |].
  split; [exact (post_feedback_run w w0 db H m context Hm) |].
  split; [reflexivity |]. split; [reflexivity |].
  split; [now rewrite He, Hd, Hc |].
  set (entry := Feedback.mk _ _ _ _).
  set (db1 := set_feedback db (default [] (feedback db) ++ [entry])).
  set (w1 := mkWorld (Some db1) _ _ _ _).
  assert (H1 : readDB w1 = (Ok db1, w1)) by now apply readDB_present.
  split; [repeat split |]. split; [reflexivity |]. split; [reflexivity |].
  destruct (list_answers_agree w _ w1 _ db db1 H H1 ltac:(repeat split))
    as (_ & _ & _ & Hn & Hi & Hs).
  split.
  { intros id. now apply (article_answers_agree w w0 w1 w1 db db1 id H H1). }
  do 3 (split; [assumption |]).
  intros m2 c2 Hm2.
  exists (Feedback.mk (entropy w1 (draws w1)) m2 (or_null c2) (clock w1 (ticks w1))).
  eexists _, _.
  split; [exact (post_feedback_run w1 w1 db1 H1 m2 c2 Hm2) |].
  split; [reflexivity |]. split; [reflexivity |].
  simpl. now rewrite <- app_assoc.
Qed.

Lemma feedback_is_appended_witness :
  exists db w0 entry w1 db1,
    readDB fresh_world = (Ok db, w0)
    /\ post_feedback (Some "nice") None fresh_world = (Ok (json StatusOk), w1)
    /\ disk w1 = Some db1
    /\ feedback db1 = Some (default [] (feedback db) ++ [entry]).
Proof.
  destruct (feedback_is_appended fresh_world "nice" None ltac:(discriminate))
    as (db & w0 & entry & w1 & db1 & H & Hp & Hd & Hf & _).
  now exists db, w0, entry, w1, db1.
Defined.

(** X11.  A created article is served at once: after an accepted
    [POST /admin/news], [GET /news/:id] with the id of the created article
    answers that article, with the likes already recorded for the id or
    0, also when a stored article has the same id; the other ids are
    answered as before. *)
Theorem created_article_is_served (w : World) (t u : string)
    (summary image sourceId : option string) :
  t <> "" -> u <> "" ->
  exists db w0 item w1 shown,
    readDB w = (Ok db, w0)
    /\ post_admin_news (Some t) summary (Some u) image sourceId w
       = (Ok (json (CreatedBody item)), w1)
    /\ get_article (Article.id item) w1
       = (Ok (json_cached "public, max-age=30" (ArticleBody item shown)), w1)
    /\ shown = or_zero (get_property (Likes.articles (likes db)) (Article.id item))
    /\ (forall n, Likes.articles (likes db) !! Article.id item = Some (Num n) ->
          shown = NumberValue n)
    /\ (Likes.articles (likes db) !! Article.id item = None ->
          shown = NumberValue 0)
    /\ (forall id, id <> Article.id item ->
          fst (get_article id w1) = fst (get_article id w))
    /\ (forall q p l, fst (get_images q p l w1) = fst (get_images q p l w)).
Proof.
  intros Ht Hu. destruct (readDB_total w) as (db & w0 & H & _).
  eexists db, w0, _, _, _. split; [exact H |].
  split; [exact (post_admin_news_run w w0 db H t u summary image sourceId Ht Hu) |].
  set (item := Article.mk _ _ _ _ _ _ _).
  set (db1 := set_news db (item :: news db)).
  set (w1 := mkWorld (Some db1) _ _ _ _).
  assert (H1 : readDB w1 = (Ok db1, w1)) by now apply readDB_present.
  split; [|split; [reflexivity |split; [|split; [|split]]]].
  - rewrite (get_article_run w1 w1 db1 H1). cbn [db1 news set_news List.find].
    now rewrite String.eqb_refl.
  - intros n Hn. exact (f_equal or_zero (get_property_own _ _ _ Hn)).
  - intros Hn.
    exact (f_equal or_zero
             (get_property_absent _ _ Hn (created_id_not_inherited _))).
  - intros id Hne.
    rewrite (get_article_run w1 w1 db1 H1), (get_article_run w w0 db H).
    cbn [db1 news set_news List.find likes fst].
    apply not_eq_sym, String.eqb_neq in Hne. now rewrite Hne.
  - intros q p l.
    now rewrite (get_images_run w1 w1 db1 H1), (get_images_run w w0 db H).
Qed.

Lemma created_article_is_served_witness :
  exists db w0 item w1 shown,
    readDB fresh_world = (Ok db, w0)
    /\ post_admin_news (Some "X") None (Some "http://y") None None fresh_world
       = (Ok (json (CreatedBody item)), w1)
    /\ get_article (Article.id item) w1
       = (Ok (json_cached "public, max-age=30" (ArticleBody item shown)), w1)
    /\ shown = or_zero (get_property (Likes.articles (likes db)) (Article.id item))
    /\ (forall n, Likes.articles (likes db) !! Article.id item = Some (Num n) ->
          shown = NumberValue n)
    /\ (Likes.articles (likes db) !! Article.id item = None ->
          shown = NumberValue 0)
    /\ (forall id, id <> Article.id item ->
          fst (get_article id w1) = fst (get_article id fresh_world))
    /\ (forall q p l,
          fst (get_images q p l w1) = fst (get_images q p l fresh_world)).
Proof.
  apply (created_article_is_served fresh_world "X" "http://y" None None None);
    discriminate.
Defined.

(** ** Invariants of the data model *)

Lemma unique_ids_same_lists (db db' : Document) :
  same_lists db db' -> feedback db' = feedback db ->
  unique_ids db -> unique_ids db'.
Proof.
  intros (Hh & Hn & Hi & Hs & Ht) Hf. unfold unique_ids.
  now rewrite Hh, Hn, Hi, Hs, Ht, Hf.
Qed.

Lemma sources_resolve_same_lists (db db' : Document) :
  same_lists db db' -> sources_resolve db -> sources_resolve db'.
Proof.
  intros (Hh & Hn & Hi & Hs & Ht). unfold sources_resolve, known_source.
  now rewrite Hh, Hn, Hi, Hs.
Qed.

Lemma NoDup_snoc_key {A B : Type} (f : A -> B) (l : list A) (x : A) :
  NoDup (map f l) ->
  NoDup (map f (l ++ [x])) <-> forall y, y ∈ l -> f y <> f x.
Proof.
  intros Hnd. rewrite map_app, NoDup_app. simpl. split.
  - intros (_ & Hdisj & _) y Hy Heq.
    apply (Hdisj (f y)).
    + now apply list_elem_of_In, in_map, list_elem_of_In.
    + rewrite Heq. apply list_elem_of_here.
  - intros Hnew. split; [assumption |]. split; [|apply NoDup_singleton].
    intros b Hb Hin. apply list_elem_of_singleton in Hin as ->.
    apply list_elem_of_In, in_map_iff in Hb as (y & Heq & Hy).
    apply (Hnew y); [now apply list_elem_of_In | assumption].
Qed.

(** X12.  A like keeps the invariants of the data model: unique
    identifiers and resolving source references.  A feedback keeps the
    source references; its id is not compared with the stored ones, so
    that identifiers stay unique exactly when the generated id is not the
    id of a stored feedback. *)
Theorem invariants_after_like_and_feedback (w : World)
    (t i m : string) (context : option string) :
  t <> "" -> i <> "" -> m <> "" ->
  exists db w0 r w1 db1 w2 db2,
    readDB w = (Ok db, w0)
    /\ post_like (Some t) (Some i) w = (Ok r, w1) /\ disk w1 = Some db1
    /\ (unique_ids db -> unique_ids db1)
    /\ (sources_resolve db -> sources_resolve db1)
    /\ post_feedback (Some m) context w = (Ok (json StatusOk), w2)
    /\ disk w2 = Some db2
    /\ (sources_resolve db -> sources_resolve db2)
    /\ (unique_ids db ->
        unique_ids db2
        <-> forall e, e ∈ default [] (feedback db) ->
              Feedback.id e <> entropy w (draws w)).
Proof.
  intros Ht Hi Hm.
  destruct (readDB_total w) as (db & w0 & H & _ & _ & He & Hd & _).
  eexists db, w0, _, _, _, _, _. split; [exact H |].
  split; [exact (post_like_run w w0 db H t i Ht Hi) |].
  split; [reflexivity |].
  split; [apply unique_ids_same_lists; [apply same_lists_liked | reflexivity] |].
  split; [apply sources_resolve_same_lists, same_lists_liked |].
  split; [exact (post_feedback_run w w0 db H m context Hm) |].
  split; [reflexivity |].
  split; [apply sources_resolve_same_lists; repeat split |].
  intros (Hh & Hn & Him & Hs & Htr & Hf). unfold unique_ids.
  cbn [highlights news images sources trending feedback set_feedback default].
  unfold id. rewrite (NoDup_snoc_key Feedback.id _ _ Hf).
  cbn [Feedback.id]. rewrite He, Hd. tauto.
Qed.

Lemma invariants_after_like_and_feedback_witness :
  exists db w0 r w1 db1 w2 db2,
    readDB fresh_world = (Ok db, w0)
    /\ post_like (Some "article") (Some "n1") fresh_world = (Ok r, w1)
    /\ disk w1 = Some db1
    /\ (unique_ids db -> unique_ids db1)
    /\ (sources_resolve db -> sources_resolve db1)
    /\ post_feedback (Some "nice") None fresh_world = (Ok (json StatusOk), w2)
    /\ disk w2 = Some db2
    /\ (sources_resolve db -> sources_resolve db2)
    /\ (unique_ids db ->
        unique_ids db2
        <-> forall e, e ∈ default [] (feedback db) ->
              Feedback.id e <> entropy fresh_world (draws fresh_world)).
Proof.
  apply (invariants_after_like_and_feedback fresh_world "article" "n1" "nice" None);
    discriminate.
Defined.

(** When the generator draws the same string twice, two feedbacks get the
    same id. *)
Example feedback_id_can_repeat :
  exists w1 w2,
    post_feedback (Some "a") None fresh_world = (Ok (json StatusOk), w1)
    /\ post_feedback (Some "b") None w1 = (Ok (json StatusOk), w2)
    /\ (fun db => map Feedback.id (default [] (feedback db))) <$> disk w2
       = Some ["V1StGX"; "V1StGX"].
Proof.
  eexists _, _. split; [|split].
  - eapply post_feedback_run; [| discriminate].
    apply readDB_absent. reflexivity.
  - eapply post_feedback_run; [| discriminate].
    apply readDB_present. reflexivity.
  - reflexivity.
Qed.

(** X13.  [POST /admin/news] stores the source reference it is given
    without looking it up: when the source references of the loaded
    document resolve, those of the written document resolve exactly when
    the [sourceId] of the request is blank or names a stored source. *)
Theorem admin_news_accepts_unknown_source (w : World) (t u : string)
    (summary image sourceId : option string) :
  t <> "" -> u <> "" ->
  exists db w0 r w1 db1,
    readDB w = (Ok db, w0)
    /\ post_admin_news (Some t) summary (Some u) image sourceId w = (Ok r, w1)
    /\ status r = 200
    /\ disk w1 = Some db1
    /\ (sources_resolve db ->
        sources_resolve db1
        <-> forall s, sourceId = Some s -> s <> "" -> known_source db s).
Proof.
  intros Ht Hu. destruct (readDB_total w) as (db & w0 & H & _).
  eexists db, w0, _, _, _. split; [exact H |].
  split; [exact (post_admin_news_run w w0 db H t u summary image sourceId Ht Hu) |].
  split; [reflexivity |]. split; [reflexivity |].
  intros (Hh & Hn & Hi). unfold sources_resolve, known_source.
  cbn [highlights news images sources set_news Article.sourceId].
  rewrite Forall_cons. cbn [Article.sourceId]. split.
  - intros (_ & [Hitem _] & _) s -> Hs. apply Hitem.
    unfold or_null. now rewrite (truthy_Some s Hs).
  - intros Hknown. split; [assumption |]. split; [|assumption].
    split; [|assumption].
    intros s Hs. unfold or_null in Hs.
    destruct (truthy sourceId) eqn:Htr; [|discriminate].
    apply truthy_true in Htr as (s' & -> & Hs'). injection Hs as <-.
    now apply Hknown.
Qed.

Lemma admin_news_accepts_unknown_source_witness :
  exists db w0 r w1 db1,
    readDB fresh_world = (Ok db, w0)
    /\ post_admin_news (Some "X") None (Some "http://y") None (Some "s9") fresh_world
       = (Ok r, w1)
    /\ status r = 200
    /\ disk w1 = Some db1
    /\ (sources_resolve db ->
        sources_resolve db1
        <-> forall s, Some "s9" = Some s -> s <> "" -> known_source db s).
Proof.
  apply (admin_news_accepts_unknown_source fresh_world "X" "http://y"
           None None (Some "s9")); discriminate.
Defined.

(** An article created on the seed document with the unknown source [s9]
    is stored, and the source references no longer resolve. *)
Example orphan_source_on_seed :
  exists r w1 db1,
    post_admin_news (Some "X") None (Some "http://y") None (Some "s9") fresh_world
    = (Ok r, w1)
    /\ disk w1 = Some db1
    /\ map Article.sourceId (news db1) = [Some "s9"; Some "s1"; Some "s2"]
    /\ ~ sources_resolve db1.
Proof.
  eexists _, _, _. split.
  { eapply post_admin_news_run; [| discriminate | discriminate].
    apply readDB_absent. reflexivity. }
  split; [reflexivity |]. split; [reflexivity |].
  intros (_ & Hn & _). apply Forall_cons in Hn as [Hitem _].
  specialize (Hitem "s9" eq_refl). unfold known_source in Hitem. simpl in Hitem.
  revert Hitem. change (~ "s9" ∈ ["s1"; "s2"; "s3"]). by_decision.
Qed.

(** ** Sequences of requests *)




(** ** Likes of ids that are not inherited names *)



(** ** Letter case of a query *)

(** X15.  Two queries that differ only in the case of their letters are
    answered alike by [GET /news], [GET /images] and [GET /search]. *)
Theorem query_case_is_ignored (w : World) (q1 q2 : string)
    (p l s : option string) :
  q1 <> "" -> toLowerCase q1 = toLowerCase q2 ->
  get_news (Some q1) p l s w = get_news (Some q2) p l s w
  /\ get_images (Some q1) p l w = get_images (Some q2) p l w
  /\ get_search (Some q1) p l w = get_search (Some q2) p l w.
Proof.
  intros H1 Hq.
  assert (H2 : q2 <> "").
  { intros ->. apply H1, toLowerCase_empty. exact Hq. }
  destruct (readDB_total w) as (db & w' & H & _).
  rewrite !(get_news_run w w' db H), !(get_images_run w w' db H).
  rewrite (get_search_run w w' db H q1 p l H1), (get_search_run w w' db H q2 p l H2).
  rewrite !truthy_Some by assumption. cbn [or_empty default]. unfold id.
  now rewrite Hq.
Qed.

Lemma query_case_is_ignored_witness :
  get_news (Some "TECH") None None None fresh_world
  = get_news (Some "tech") None None None fresh_world
  /\ get_images (Some "TECH") None None fresh_world
     = get_images (Some "tech") None None fresh_world
  /\ get_search (Some "TECH") None None fresh_world
     = get_search (Some "tech") None None fresh_world.
Proof.
  apply (query_case_is_ignored fresh_world "TECH" "tech" None None None);
    [discriminate | reflexivity].
Defined.
